(** * VoteScoreCalculator: the vote aggregation and classification engine

    A shallow embedding of the class [VoteScoreCalculator] of
    [src/components/newsList.js] (lines 647-1263) and the properties of
    its classification pipeline.

    JavaScript numbers are IEEE 754 binary64 values; they are modelled by
    Rocq's primitive [float], whose operations are the same binary64
    operations, so every concrete evaluation below is the value the
    JavaScript engine computes.  Objects become records, a property that
    may be missing becomes an [option], the four status strings become an
    enumeration, and the methods, which mutate [this] and call the two
    callbacks, become computations over the calculator state that log
    the callback invocations.  Console output is not modelled.

    The pagination of the news list in the same file (lines 1-642) is
    embedded in [NewsList]. *)

From Stdlib Require Import ZArith Floats Bool List Sorted String Lia.
Import ListNotations.

#[local] Set Warnings "-inexact-float".
#[local] Open Scope float_scope.

(* ================================================================= *)
(** ** JavaScript numbers *)

Module Js.

(** [ToBoolean] on a number: [+0], [-0] and [NaN] are falsy. *)
Definition truthy (x : float) : bool := negb (is_zero x || is_nan x).

(** [v || d] where [v] is a number or [undefined] and [d] a number. *)
Definition or_else (v : option float) (d : float) : float :=
  match v with
  | Some x => if truthy x then x else d
  | None => d
  end.

(** The relational operators, written the way the source writes them. *)
Definition lt (a b : float) : bool := a <? b.
Definition gt (a b : float) : bool := b <? a.
Definition le (a b : float) : bool := a <=? b.
Definition ge (a b : float) : bool := b <=? a.
(** [a === b] on numbers. *)
Definition strict_eq (a b : float) : bool := a =? b.

(** The float that holds the integer [z], for [|z| <= 2^53]; the sign
    [s] decides between [+0] and [-0]. *)
Definition of_int (s : bool) (z : Z) : float :=
  match z with
  | Z0 => if s then neg_zero else zero
  | Zpos p => of_uint63 (Uint63.of_Z (Zpos p))
  | Zneg p => - of_uint63 (Uint63.of_Z (Zpos p))
  end.

(** The numerator of a finite float [(-1)^s * m * 2^e]. *)
Definition signed (s : bool) (m : positive) : Z :=
  if s then Zneg m else Zpos m.

(** [Math.round]: the integer closest to [x], ties towards [+Infinity];
    [NaN], the infinities, the zeros and the integers are returned as
    they are, and a result of zero keeps the sign of [x]. *)
Definition Math_round (x : float) : float :=
  match Prim2SF x with
  | S754_finite s m e =>
      if (0 <=? e)%Z then x
      else
        let d := (2 ^ (- e))%Z in
        of_int s ((2 * signed s m + d) / (2 * d))
  | _ => x
  end.

(** [Math.floor]: the greatest integer not above [x]. *)
Definition Math_floor (x : float) : float :=
  match Prim2SF x with
  | S754_finite s m e =>
      if (0 <=? e)%Z then x
      else of_int s (signed s m / 2 ^ (- e))
  | _ => x
  end.

Definition Math_abs (x : float) : float := abs x.

(** [Math.min] of two numbers: [NaN] if either is, [-0] below [+0]. *)
Definition Math_min (a b : float) : float :=
  if is_nan a || is_nan b then nan
  else if a <? b then a
  else if b <? a then b
  else if get_sign a then a else b.

End Js.

(* ================================================================= *)
(** ** Data of the calculator *)

(** [scoreData.status]: 'pending', 'fake', 'non-fake', 'insufficient'. *)
Inductive Status : Type := Pending | Fake | NonFake | Insufficient.

Definition Status_eqb (a b : Status) : bool :=
  match a, b with
  | Pending, Pending | Fake, Fake | NonFake, NonFake
  | Insufficient, Insufficient => true
  | _, _ => false
  end.

(** [this.voteData]. *)
Record VoteData : Type := mkVoteData {
  fakeVotes : float;
  nonFakeVotes : float;
  totalVotes : float;
  invalidVotes : float;
  validVotes : float
}.

(** [this.scoreData]. *)
Record ScoreData : Type := mkScoreData {
  fakeScore : float;
  confidence : float;
  status : Status
}.

(** The [data] argument of [updateVoteData]: each numeric property may
    be missing. *)
Record VoteInput : Type := mkVoteInput {
  in_fakeVotes : option float;
  in_nonFakeVotes : option float;
  in_totalVotes : option float;
  in_invalidVotes : option float;
  in_validVotes : option float
}.

(** The [options] argument of the constructor. *)
Record Options : Type := mkOptions {
  opt_threshold : option float;
  opt_minVotes : option float;
  opt_apiUrl : option string
}.

(** The fields of a [VoteScoreCalculator] instance.  The two callback
    fields are represented by the events they receive. *)
Record Calc : Type := mkCalc {
  threshold : float;
  minVotes : float;
  apiUrl : string;
  currentNewsId : option string;
  voteData : VoteData;
  scoreData : ScoreData
}.

(** What the calculator does to its environment: the two callbacks and
    the loading hook. *)
Inductive Event : Type :=
| ScoreUpdate (sd : ScoreData)
| StatusChange (newStatus oldStatus : Status)
| Loading (show : bool).

Definition is_StatusChange (e : Event) : bool :=
  match e with StatusChange _ _ => true | _ => false end.

(* ================================================================= *)
(** ** Methods as computations over [this] *)

(** A method body: reads and writes the instance and emits events. *)
Definition M (A : Type) : Type := Calc -> A * Calc * list Event.

Definition ret {A} (a : A) : M A := fun this => (a, this, []).

Definition bind {A B} (m : M A) (k : A -> M B) : M B :=
  fun this =>
    let '(a, this1, ev1) := m this in
    let '(b, this2, ev2) := k a this1 in
    (b, this2, ev1 ++ ev2).

Definition get : M Calc := fun this => (this, this, []).
Definition put (c : Calc) : M unit := fun _ => (tt, c, []).
Definition emit (e : Event) : M unit := fun this => (tt, this, [e]).

Declare Scope method_scope.
Delimit Scope method_scope with method.
Notation "x <- m ;; k" := (bind m (fun x => k))
  (at level 61, m at next level, right associativity) : method_scope.
Notation "m ;; k" := (bind m (fun _ => k))
  (at level 61, right associativity) : method_scope.
#[local] Open Scope method_scope.

Definition result {A} (r : A * Calc * list Event) : A := fst (fst r).
Definition after {A} (r : A * Calc * list Event) : Calc := snd (fst r).
Definition events {A} (r : A * Calc * list Event) : list Event := snd r.

Definition set_threshold (t : float) (c : Calc) : Calc :=
  mkCalc t (minVotes c) (apiUrl c) (currentNewsId c) (voteData c) (scoreData c).
Definition set_minVotes (m : float) (c : Calc) : Calc :=
  mkCalc (threshold c) m (apiUrl c) (currentNewsId c) (voteData c) (scoreData c).
Definition set_currentNewsId (n : option string) (c : Calc) : Calc :=
  mkCalc (threshold c) (minVotes c) (apiUrl c) n (voteData c) (scoreData c).
Definition set_voteData (v : VoteData) (c : Calc) : Calc :=
  mkCalc (threshold c) (minVotes c) (apiUrl c) (currentNewsId c) v (scoreData c).
Definition set_scoreData (s : ScoreData) (c : Calc) : Calc :=
  mkCalc (threshold c) (minVotes c) (apiUrl c) (currentNewsId c) (voteData c) s.

Definition modify (f : Calc -> Calc) : M unit :=
  this <- get ;; put (f this).

Module VoteScoreCalculator.

Definition emptyVoteData : VoteData := mkVoteData 0 0 0 0 0.
Definition emptyScoreData : ScoreData := mkScoreData 0 0 Pending.

(** [constructor(options = {})]. *)
Definition constructor (options : Options) : Calc :=
  {| threshold := Js.or_else (opt_threshold options) 0.6;
     minVotes := Js.or_else (opt_minVotes options) 5;
     apiUrl := match opt_apiUrl options with
               | Some (String a u) => String a u
               | Some EmptyString | None => "/api/news/recalculate-score"
               end%string;
     currentNewsId := None;
     voteData := emptyVoteData;
     scoreData := emptyScoreData |}.

Definition noOptions : Options := mkOptions None None None.

(** [calculateConfidence(fakeVotes, nonFakeVotes)]; reads [this.minVotes]. *)
Definition calculateConfidence (this : Calc) (fakeVotes nonFakeVotes : float)
  : float :=
  let total := fakeVotes + nonFakeVotes in
  if Js.strict_eq total 0 then 0
  else
    let ratioDifference := Js.Math_abs (fakeVotes - nonFakeVotes) / total in
    let voteCountFactor := Js.Math_min (total / (minVotes this * 5)) 1 in
    let confidence := ratioDifference * voteCountFactor in
    Js.Math_round (confidence * 100) / 100.

(** [calculateScore()]. *)
Definition calculateScore : M ScoreData :=
  this <- get ;;
  let fakeVotes := fakeVotes (voteData this) in
  let nonFakeVotes := nonFakeVotes (voteData this) in
  let validVotes := validVotes (voteData this) in
  let fakeScore := if Js.gt validVotes 0 then fakeVotes / validVotes else 0 in
  let confidence := calculateConfidence this fakeVotes nonFakeVotes in
  let newStatus :=
    if Js.lt validVotes (minVotes this) then Insufficient
    else if Js.ge fakeScore (threshold this) then Fake
    else NonFake in
  let oldStatus := status (scoreData this) in
  let sd := mkScoreData fakeScore confidence newStatus in
  modify (set_scoreData sd) ;;
  emit (ScoreUpdate sd) ;;
  (if negb (Status_eqb newStatus oldStatus)
   then emit (StatusChange newStatus oldStatus)
   else ret tt) ;;
  ret sd.

(** The object literal that [updateVoteData] assigns to
    [this.voteData] (lines 692-698). *)
Definition voteDataOf (data : VoteInput) : VoteData :=
  {| fakeVotes := Js.or_else (in_fakeVotes data) 0;
     nonFakeVotes := Js.or_else (in_nonFakeVotes data) 0;
     totalVotes := Js.or_else (in_totalVotes data) 0;
     invalidVotes := Js.or_else (in_invalidVotes data) 0;
     validVotes :=
       Js.or_else (in_validVotes data)
         (Js.or_else (in_fakeVotes data) 0
          + Js.or_else (in_nonFakeVotes data) 0) |}.

(** [updateVoteData(newsId, data)]. *)
Definition updateVoteData (newsId : string) (data : VoteInput) : M unit :=
  modify (set_currentNewsId (Some newsId)) ;;
  modify (set_voteData (voteDataOf data)) ;;
  calculateScore ;;
  ret tt.

(** [setThreshold(threshold)]. *)
Definition setThreshold (t : float) : M unit :=
  if Js.ge t 0 && Js.le t 1
  then modify (set_threshold t) ;; calculateScore ;; ret tt
  else ret tt.

(** [setMinVotes(minVotes)]. *)
Definition setMinVotes (m : float) : M unit :=
  if Js.ge m 0
  then modify (set_minVotes m) ;; calculateScore ;; ret tt
  else ret tt.

(** [destroy()]. *)
Definition destroy : M unit :=
  modify (set_currentNewsId None) ;;
  modify (set_voteData emptyVoteData) ;;
  modify (set_scoreData emptyScoreData).

(** [showLoading(show)]. *)
Definition showLoading (show : bool) : M unit := emit (Loading show).

(** [generateMockData(totalVotes, fakeRatio)]. *)
Definition generateMockData (totalVotes fakeRatio : float) : VoteInput :=
  let fakeVotes := Js.Math_floor (totalVotes * fakeRatio) in
  let nonFakeVotes := totalVotes - fakeVotes in
  let invalidVotes := Js.Math_floor (totalVotes * 0.1) in
  {| in_fakeVotes := Some fakeVotes;
     in_nonFakeVotes := Some nonFakeVotes;
     in_totalVotes := Some (fakeVotes + nonFakeVotes + invalidVotes);
     in_invalidVotes := Some invalidVotes;
     in_validVotes := Some (fakeVotes + nonFakeVotes) |}.

(** *** [recalculateScore(newsId)]

    The method is [async]: it runs up to its [await] (line 798), is
    suspended, and is resumed when the awaited promise settles.  The
    two parts are separate computations so that other code can run
    between them.

    The awaited promise stands where the request to [apiUrl] is
    commented out; in the source it is an 800 ms timer, which always
    resolves.  Its outcome is an argument of the second part, which
    gives the [catch] and [finally] clauses their meaning; the two
    draws of [Math.random()] are arguments too. *)

Inductive Awaited : Type :=
| Resolved
| Rejected (error : string).

Inductive Completion (A : Type) : Type :=
| Return (a : A)
| Throw (error : string).
Arguments Return {A} a.
Arguments Throw {A} error.

(** [mockResult.data]; it has no [totalVotes] and no [validVotes]. *)
Record RecalcData : Type := mkRecalcData {
  rd_newsId : string;
  rd_fakeVotes : float;
  rd_nonFakeVotes : float;
  rd_invalidVotes : float;
  rd_status : Status
}.

Record MockResult : Type := mkMockResult {
  success : bool;
  data : RecalcData
}.

(** [mockResult.data] as [updateVoteData] reads it. *)
Definition asVoteInput (d : RecalcData) : VoteInput :=
  {| in_fakeVotes := Some (rd_fakeVotes d);
     in_nonFakeVotes := Some (rd_nonFakeVotes d);
     in_totalVotes := None;
     in_invalidVotes := Some (rd_invalidVotes d);
     in_validVotes := None |}.

Definition mockResult (newsId : string) (random1 random2 : float)
    (this : Calc) : MockResult :=
  {| success := true;
     data :=
       {| rd_newsId := newsId;
          rd_fakeVotes :=
            fakeVotes (voteData this) + Js.Math_floor (random1 * 3);
          rd_nonFakeVotes :=
            nonFakeVotes (voteData this) + Js.Math_floor (random2 * 2);
          rd_invalidVotes := invalidVotes (voteData this);
          rd_status := status (scoreData this) |} |}.

(** From the call to the [await]. *)
Definition recalculateScore_enter : M unit := showLoading true.

(** From the [await] to the end: the rest of the [try] block, or the
    [catch] clause, and then the [finally] clause. *)
Definition recalculateScore_resume (newsId : string) (timer : Awaited)
    (random1 random2 : float) : M (Completion MockResult) :=
  completion <-
    match timer with
    | Resolved =>
        this <- get ;;
        let mockResult := mockResult newsId random1 random2 this in
        updateVoteData newsId (asVoteInput (data mockResult)) ;;
        ret (Return mockResult)
    | Rejected error => ret (Throw error)
    end ;;
  showLoading false ;;
  ret completion.

(** A call that nothing interleaves with. *)
Definition recalculateScore (newsId : string) (timer : Awaited)
    (random1 random2 : float) : M (Completion MockResult) :=
  recalculateScore_enter ;;
  recalculateScore_resume newsId timer random1 random2.

End VoteScoreCalculator.
Import VoteScoreCalculator.

(* ================================================================= *)
(** ** Several calls of [recalculateScore] on one instance

    JavaScript runs one task at a time.  A call of [recalculateScore]
    runs to its [await] and leaves a suspended continuation behind; when
    its timer fires the continuation runs to the end.  A world is the
    instance, the suspended calls (each with its [newsId]) and the events
    emitted so far. *)

Module EventLoop.

Record World : Type := mkWorld {
  calc : Calc;
  suspended : list string;
  log : list Event
}.

Inductive Task : Type :=
| Call (newsId : string)
| Fire (i : nat) (timer : Awaited) (random1 random2 : float).

Fixpoint remove_nth {A} (i : nat) (l : list A) : list A :=
  match i, l with
  | _, [] => []
  | O, _ :: l => l
  | S i, a :: l => a :: remove_nth i l
  end.

Definition step (w : World) (t : Task) : World :=
  match t with
  | Call newsId =>
      let r := recalculateScore_enter (calc w) in
      {| calc := after r;
         suspended := suspended w ++ [newsId];
         log := log w ++ events r |}
  | Fire i timer random1 random2 =>
      match nth_error (suspended w) i with
      | Some newsId =>
          let r := recalculateScore_resume newsId timer random1 random2
                     (calc w) in
          {| calc := after r;
             suspended := remove_nth i (suspended w);
             log := log w ++ events r |}
      | None => w
      end
  end.

Definition run (tasks : list Task) (w : World) : World :=
  fold_left step tasks w.

Definition start (c : Calc) : World := mkWorld c [] [].

(** The recalculations of [newsId] that have started and not finished. *)
Definition inFlight (newsId : string) (w : World) : nat :=
  count_occ string_dec (suspended w) newsId.

End EventLoop.

(* ================================================================= *)
(** ** The classification rule in the words of the specification *)

(** Rule 1: [validVotes < minValidVotes] gives [insufficient]; rule 2:
    otherwise [fakeScore >= threshold] gives [fake]; rule 3: otherwise
    [non-fake]. *)
Definition spec_status (validVotes minValidVotes fakeScore threshold : float)
  : Status :=
  if validVotes <? minValidVotes then Insufficient
  else if threshold <=? fakeScore then Fake
  else NonFake.

(** The two factors of the confidence in the words of the
    specification: [|fakeVotes - nonFakeVotes| / validVotes] and
    [min(validVotes / (minValidVotes * 5), 1)]. *)
Definition ratioDifference (fakeVotes nonFakeVotes validVotes : float) : float :=
  Js.Math_abs (fakeVotes - nonFakeVotes) / validVotes.

Definition voteCountFactor (validVotes minValidVotes : float) : float :=
  Js.Math_min (validVotes / (minValidVotes * 5)) 1.

(** Rounding to two decimal places, as [calculateConfidence] ends. *)
Definition round2 (x : float) : float := Js.Math_round (x * 100) / 100.

(** The snapshot that [calculateScore] computes from an instance. *)
Definition snapshot (this : Calc) : ScoreData :=
  let v := validVotes (voteData this) in
  let fakeScore := if 0 <? v then fakeVotes (voteData this) / v else 0 in
  {| fakeScore := fakeScore;
     confidence :=
       calculateConfidence this (fakeVotes (voteData this))
         (nonFakeVotes (voteData this));
     status := spec_status v (minVotes this) fakeScore (threshold this) |}.

(** A tally given by its three counters. *)
Definition votes (fake nonFake invalid : float) : VoteInput :=
  mkVoteInput (Some fake) (Some nonFake) None (Some invalid) None.

(** The divisors of the divisions that one run of [calculateScore]
    executes, in the order of execution: line 716 divides by
    [validVotes] when it is positive; [calculateConfidence] returns
    before any division when [total === 0], and otherwise divides by
    [total] (line 762), by [this.minVotes * 5] (line 763) and by [100]
    (line 768). *)
Definition calculateScore_divisors (this : Calc) : list float :=
  let validVotes := validVotes (voteData this) in
  let total := fakeVotes (voteData this) + nonFakeVotes (voteData this) in
  (if Js.gt validVotes 0 then [validVotes] else []) ++
  (if Js.strict_eq total 0 then []
   else [total; minVotes this * 5; 100]).

(** The instance right after [updateVoteData] has stored the new tally
    and before it recomputes the score. *)
Definition stored (newsId : string) (data : VoteInput) (this : Calc) : Calc :=
  set_voteData (voteDataOf data) (set_currentNewsId (Some newsId) this).

(** An input whose derived fields disagree with its counters. *)
Definition inconsistentInput : VoteInput :=
  mkVoteInput (Some 1) (Some 1) (Some 9) (Some 0) (Some 7).

(** A tally that is, in all its fields, what [updateVoteData] stores for
    the response data of one run of the mocked request. *)
Definition wholeRead (vd : VoteData) : Prop :=
  exists newsId random1 random2 this,
    vd = voteDataOf (asVoteInput (data (mockResult newsId random1 random2 this))).

(* ================================================================= *)
(** ** Sequences of method calls *)

(** One call of a public method of an instance, with its arguments; for
    [recalculateScore], with the outcome of its request and its two
    random draws. *)
Inductive Op : Type :=
| UpdateVoteData (newsId : string) (data : VoteInput)
| CalculateScore
| SetThreshold (t : float)
| SetMinVotes (m : float)
| Destroy
| RecalculateScore (newsId : string) (timer : Awaited) (random1 random2 : float).

Definition call (op : Op) : M unit :=
  match op with
  | UpdateVoteData newsId data => updateVoteData newsId data
  | CalculateScore => calculateScore ;; ret tt
  | SetThreshold t => setThreshold t
  | SetMinVotes m => setMinVotes m
  | Destroy => destroy
  | RecalculateScore newsId timer random1 random2 =>
      recalculateScore newsId timer random1 random2 ;; ret tt
  end.

Fixpoint calls (ops : list Op) : M unit :=
  match ops with
  | [] => ret tt
  | op :: ops => call op ;; calls ops
  end.

Definition is_Destroy (op : Op) : bool :=
  match op with Destroy => true | _ => false end.

(** The instance on which a call runs [calculateScore], when it does:
    the instance with the new tally or the new policy value stored. *)
Definition recomputed (op : Op) (this : Calc) : option Calc :=
  match op with
  | UpdateVoteData newsId data => Some (stored newsId data this)
  | CalculateScore => Some this
  | SetThreshold t =>
      if Js.ge t 0 && Js.le t 1 then Some (set_threshold t this) else None
  | SetMinVotes m => if Js.ge m 0 then Some (set_minVotes m this) else None
  | Destroy => None
  | RecalculateScore newsId Resolved random1 random2 =>
      Some (stored newsId
              (asVoteInput (data (mockResult newsId random1 random2 this)))
              this)
  | RecalculateScore _ (Rejected _) _ _ => None
  end.

(** The instance a call leaves when it does not run [calculateScore]. *)
Definition untouched (op : Op) (this : Calc) : Calc :=
  match op with
  | Destroy =>
      mkCalc (threshold this) (minVotes this) (apiUrl this) None
        emptyVoteData emptyScoreData
  | _ => this
  end.

(** The loading events around a call. *)
Definition loadingBefore (op : Op) : list Event :=
  match op with RecalculateScore _ _ _ _ => [Loading true] | _ => [] end.
Definition loadingAfter (op : Op) : list Event :=
  match op with RecalculateScore _ _ _ _ => [Loading false] | _ => [] end.

(** A listener that knows the status of an instance and then follows it
    through [onStatusChange] alone.  It gives up on a notification whose
    old status is not the one it holds, or that changes nothing. *)
Fixpoint follow (known : Status) (evs : list Event) : option Status :=
  match evs with
  | [] => Some known
  | StatusChange newStatus oldStatus :: evs =>
      if Status_eqb oldStatus known && negb (Status_eqb newStatus oldStatus)
      then follow newStatus evs
      else None
  | _ :: evs => follow known evs
  end.

(** The stored score data agree with what [calculateScore] would compute
    now; only the status may still be the initial 'pending'. *)
Definition current (this : Calc) : Prop :=
  fakeScore (scoreData this) = fakeScore (snapshot this) /\
  confidence (scoreData this) = confidence (snapshot this) /\
  (status (scoreData this) = Pending \/
   status (scoreData this) = status (snapshot this)).

(** A policy in range: threshold in [0, 1], minimum not negative. *)
Definition validPolicy (this : Calc) : bool :=
  Js.ge (threshold this) 0 && Js.le (threshold this) 1
  && Js.ge (minVotes this) 0.

(** A stored counter is a truthy number or [+0]: never [NaN], never
    [-0]. *)
Definition clean (x : float) : Prop := Js.truthy x = true \/ x = 0.

(** The instance has no tally, no score and no article. *)
Definition pristine (this : Calc) : Prop :=
  voteData this = emptyVoteData /\ scoreData this = emptyScoreData /\
  currentNewsId this = None.

(** The four stored counters are clean. *)
Definition cleanTally (this : Calc) : Prop :=
  clean (fakeVotes (voteData this)) /\ clean (nonFakeVotes (voteData this)) /\
  clean (totalVotes (voteData this)) /\ clean (invalidVotes (voteData this)).

(** How far the loading state is from rest: switched on once more than
    off counts as 1. *)
Fixpoint loadingDepth (evs : list Event) : Z :=
  match evs with
  | [] => 0
  | Loading true :: evs => 1 + loadingDepth evs
  | Loading false :: evs => loadingDepth evs - 1
  | _ :: evs => loadingDepth evs
  end%Z.

(* ================================================================= *)
(** ** The news list: pagination

    The list part of [src/components/newsList.js] (lines 1-642) works on
    page numbers, page sizes, item counts and array indices.  These are
    integers far below 2^53, on which the binary64 operations used here
    ([+], [-], [*], the comparisons, [Math.max], [Math.min], and
    [Math.floor] and [Math.ceil] of a quotient) are exact; they are
    modelled by [Z].  Arrays are lists; a string is the list of its
    code units. *)

Module NewsList.

#[local] Open Scope Z_scope.

Definition maxVisiblePages : Z := 5.

(** [startPage] and [endPage] of [updatePagination] (lines 363-370). *)
Definition pageWindow (pageCount currentPageNum : Z) : Z * Z :=
  let startPage := Z.max 1 (currentPageNum - maxVisiblePages / 2) in
  let endPage := Z.min pageCount (startPage + maxVisiblePages - 1) in
  let startPage :=
    if endPage - startPage + 1 <? maxVisiblePages
    then Z.max 1 (endPage - maxVisiblePages + 1)
    else startPage in
  (startPage, endPage).

(** The elements that [updatePagination] writes into
    [pagination-controls], in document order: the previous button, the
    page buttons (with [data-page] and the [active] class), the
    ellipses, the next button. *)
Inductive Control : Type :=
| PrevBtn (disabled : bool) (page : Z)
| PageBtn (active : bool) (page : Z)
| Ellipsis
| NextBtn (disabled : bool) (page : Z).

(** The values of [i] in [for (let i = startPage; i <= endPage; i++)]. *)
Fixpoint pagesFrom (startPage : Z) (count : nat) : list Z :=
  match count with
  | O => []
  | S count => startPage :: pagesFrom (startPage + 1) count
  end.

Definition pageRange (startPage endPage : Z) : list Z :=
  pagesFrom startPage (Z.to_nat (endPage - startPage + 1)).

(** [updatePagination(pageCount, currentPageNum, pageSize, total)]
    (lines 343-401), when the pagination element exists: [None] when
    the pagination is hidden, else the controls. *)
Definition updatePagination (pageCount currentPageNum : Z)
  : option (list Control) :=
  if pageCount <=? 1 then None
  else
    let '(startPage, endPage) := pageWindow pageCount currentPageNum in
    Some
      ([PrevBtn (currentPageNum =? 1) (currentPageNum - 1)]
       ++ (if 1 <? startPage
           then PageBtn false 1 :: (if 2 <? startPage then [Ellipsis] else [])
           else [])
       ++ map (fun i => PageBtn (i =? currentPageNum) i)
            (pageRange startPage endPage)
       ++ (if endPage <? pageCount
           then (if endPage <? pageCount - 1 then [Ellipsis] else [])
                ++ [PageBtn false pageCount]
           else [])
       ++ [NextBtn (currentPageNum =? pageCount) (currentPageNum + 1)]).

(** The pages of the page buttons, and of the active ones, in order. *)
Fixpoint pagesOf (controls : list Control) : list Z :=
  match controls with
  | [] => []
  | PageBtn _ page :: controls => page :: pagesOf controls
  | _ :: controls => pagesOf controls
  end.

Fixpoint activeOf (controls : list Control) : list Z :=
  match controls with
  | [] => []
  | PageBtn true page :: controls => page :: activeOf controls
  | _ :: controls => activeOf controls
  end.

(** Two page buttons in a row are consecutive pages, and two page
    buttons with an ellipsis between them leave pages out. *)
Fixpoint wellSpaced (previous : option Z) (ellipsis : bool)
    (controls : list Control) : bool :=
  match controls with
  | [] => true
  | PageBtn _ page :: controls =>
      match previous with
      | None => true
      | Some q => if ellipsis then q + 1 <? page else page =? q + 1
      end && wellSpaced (Some page) false controls
  | Ellipsis :: controls => wellSpaced previous true controls
  | _ :: controls => wellSpaced previous ellipsis controls
  end.

(** [array.slice(start, end)] with integer arguments. *)
Definition slice {A} (array : list A) (start end_ : Z) : list A :=
  let len := Z.of_nat (List.length array) in
  let k := if start <? 0 then Z.max (len + start) 0 else Z.min start len in
  let final := if end_ <? 0 then Z.max (len + end_) 0 else Z.min end_ len in
  firstn (Z.to_nat (final - k)) (skipn (Z.to_nat k) array).

(** [currentPageNews] of [loadMockData] (lines 125-126). *)
Definition currentPageNews {A} (filteredNews : list A)
    (currentPage currentPageSize : Z) : list A :=
  let startIndex := (currentPage - 1) * currentPageSize in
  slice filteredNews startIndex (startIndex + currentPageSize).

(** [Math.ceil(totalItems / currentPageSize)] (line 122), for a page
    size of at least 1. *)
Definition totalPages (totalItems currentPageSize : Z) : Z :=
  - ((- totalItems) / currentPageSize).

(** The page state that the click handlers of [bindPaginationEvents]
    read and write: the module variables [currentPage] and
    [totalPages] (here [lastPage]). *)
Record PageState : Type := mkPageState {
  currentPage : Z;
  lastPage : Z
}.

(** The handlers of a page button with [data-page] [page] (an
    integer, so [isNaN] is false), of the previous button and of the
    next button (lines 429-457), up to the reload they start. *)
Definition clickPage (page : Z) (st : PageState) : PageState :=
  if negb (page =? currentPage st) then mkPageState page (lastPage st) else st.

Definition clickPrev (st : PageState) : PageState :=
  if 1 <? currentPage st
  then mkPageState (currentPage st - 1) (lastPage st) else st.

Definition clickNext (st : PageState) : PageState :=
  if currentPage st <? lastPage st
  then mkPageState (currentPage st + 1) (lastPage st) else st.

(** The excerpt of [renderNewsList] (lines 222-224); [dots] is the
    string of three full stops. *)
Definition excerpt {A} (dots : list A) (content : list A) : list A :=
  if 150 <? Z.of_nat (List.length content)
  then firstn 150 content ++ dots
  else content.

End NewsList.

(* ================================================================= *)
(** ** Facts about binary64 comparisons and division *)

Section FloatFacts.

Lemma SFcompare_antisym a b :
  SFcompare b a = option_map CompOpp (SFcompare a b).
Proof.
  destruct a as [sa|sa| |sa ma ea], b as [sb|sb| |sb mb eb]; cbn;
    try reflexivity;
    try (destruct sa; reflexivity); try (destruct sb; reflexivity);
    try (destruct sa, sb; reflexivity).
  rewrite (Z.compare_antisym ea eb).
  rewrite !Pos.compare_cont_spec; cbn [Pos.switch_Eq].
  rewrite (Pos.compare_antisym ma mb).
  destruct sa, sb, (ea ?= eb)%Z, (ma ?= mb)%positive; reflexivity.
Qed.

Lemma ltb_leb_false a b : (a <? b) = true -> (b <=? a) = false.
Proof.
  rewrite FloatAxioms.ltb_spec, FloatAxioms.leb_spec. unfold SFltb, SFleb.
  rewrite (SFcompare_antisym (Prim2SF a) (Prim2SF b)).
  destruct (SFcompare (Prim2SF a) (Prim2SF b)) as [[]|]; cbn; congruence.
Qed.

Lemma ltb_eqb_false a b : (a <? b) = true -> (b =? a) = false.
Proof.
  rewrite FloatAxioms.ltb_spec, FloatAxioms.eqb_spec. unfold SFltb, SFeqb.
  rewrite (SFcompare_antisym (Prim2SF a) (Prim2SF b)).
  destruct (SFcompare (Prim2SF a) (Prim2SF b)) as [[]|]; cbn; congruence.
Qed.

Lemma eqb_ltb_false a b : (a =? b) = true -> (b <? a) = false.
Proof.
  rewrite FloatAxioms.ltb_spec, FloatAxioms.eqb_spec. unfold SFltb, SFeqb.
  rewrite (SFcompare_antisym (Prim2SF a) (Prim2SF b)).
  destruct (SFcompare (Prim2SF a) (Prim2SF b)) as [[]|]; cbn; congruence.
Qed.

(** A positive number divided by [+0] is [+Infinity]. *)
Lemma div_pos_zero x : (0 <? x) = true -> x / 0 = infinity.
Proof.
  intros H. apply FloatAxioms.Prim2SF_inj.
  rewrite FloatAxioms.div_spec. rewrite FloatAxioms.ltb_spec in H.
  change (Prim2SF 0) with (S754_zero false) in *.
  change (Prim2SF infinity) with (S754_infinity false).
  destruct (Prim2SF x) as [s|s| |s m e]; cbn in *; try discriminate.
  - destruct s; try discriminate. reflexivity.
  - destruct s; try discriminate. reflexivity.
Qed.

End FloatFacts.

(* ================================================================= *)
(** ** What [calculateScore] does *)

Lemma Status_eqb_spec a b : reflect (a = b) (Status_eqb a b).
Proof. destruct a, b; constructor; congruence. Qed.

Lemma Status_eqb_refl a : Status_eqb a a = true.
Proof. now destruct a. Qed.

Lemma calculateScore_result this :
  result (calculateScore this) = snapshot this.
Proof.
  unfold calculateScore, snapshot, spec_status, Js.gt, Js.lt, Js.ge.
  cbv [bind get modify put emit ret result fst].
  destruct (negb _); reflexivity.
Qed.

Lemma calculateScore_after this :
  after (calculateScore this) = set_scoreData (snapshot this) this.
Proof.
  unfold calculateScore, snapshot, spec_status, Js.gt, Js.lt, Js.ge.
  cbv [bind get modify put emit ret after fst snd].
  destruct (negb _); reflexivity.
Qed.

Lemma calculateScore_events this :
  events (calculateScore this) =
  ScoreUpdate (snapshot this) ::
  (if Status_eqb (status (snapshot this)) (status (scoreData this)) then []
   else [StatusChange (status (snapshot this)) (status (scoreData this))]).
Proof.
  unfold calculateScore, snapshot, spec_status, Js.gt, Js.lt, Js.ge.
  cbv [bind get modify put emit ret events fst snd status app].
  destruct (Status_eqb _ _); reflexivity.
Qed.

Lemma snapshot_set_scoreData sd this :
  snapshot (set_scoreData sd this) = snapshot this.
Proof. reflexivity. Qed.

Lemma updateVoteData_after newsId data this :
  after (updateVoteData newsId data this) =
  set_scoreData (snapshot (stored newsId data this)) (stored newsId data this).
Proof.
  unfold updateVoteData.
  cbv [bind modify get put ret after fst snd].
  pose proof (calculateScore_after (stored newsId data this)) as H.
  unfold after, stored in *.
  destruct (calculateScore _) as [[sd c] ev]. cbn in *. exact H.
Qed.

Lemma updateVoteData_events newsId data this :
  events (updateVoteData newsId data this) =
  events (calculateScore (stored newsId data this)).
Proof.
  unfold updateVoteData.
  cbv [bind modify get put ret events fst snd].
  unfold stored.
  destruct (calculateScore _) as [[sd c] ev]. cbn.
  now rewrite app_nil_r.
Qed.

(* ================================================================= *)
(** ** The classifier *)

(** C1: every evaluation of the classifier stores the snapshot it
    returns, and its status follows the three ordered rules: valid votes
    below the minimum give 'insufficient'; otherwise a fake score at or
    above the threshold gives 'fake' (equality included); otherwise
    'non-fake'.  With 6 fake and 4 non-fake votes and threshold 0.6 the
    status is 'fake' (for every minimum that 10 votes reach); with a
    minimum of 5, 4 fake votes and no non-fake vote the status is
    'insufficient' whatever the threshold. *)
Theorem classifier_three_ordered_rules :
  (forall this : Calc,
     let v := validVotes (voteData this) in
     let sd := result (calculateScore this) in
     scoreData (after (calculateScore this)) = sd /\
     status sd = spec_status v (minVotes this) (fakeScore sd) (threshold this) /\
     ((v <? minVotes this) = true -> status sd = Insufficient) /\
     ((v <? minVotes this) = false ->
      (threshold this <=? fakeScore sd) = true -> status sd = Fake) /\
     ((v <? minVotes this) = false ->
      (threshold this <=? fakeScore sd) = false -> status sd = NonFake)) /\
  (forall (this : Calc) newsId invalid,
     threshold this = 0.6 -> (10 <? minVotes this) = false ->
     status (scoreData (after (updateVoteData newsId (votes 6 4 invalid) this)))
     = Fake) /\
  (forall (this : Calc) newsId invalid,
     minVotes this = 5 ->
     status (scoreData (after (updateVoteData newsId (votes 4 0 invalid) this)))
     = Insufficient).
Proof.
  split; [|split].
  - intros this v sd. subst sd.
    rewrite calculateScore_result, calculateScore_after. cbn [scoreData set_scoreData].
    split; [reflexivity|]. split; [reflexivity|].
    unfold snapshot, spec_status; cbn [status fakeScore]. fold v.
    repeat split; intros; repeat match goal with H : _ = _ |- _ => rewrite H end;
      reflexivity.
  - intros [t m u n vd sd] newsId invalid Ht Hm. cbn in Ht, Hm. subst t.
    rewrite updateVoteData_after.
    cbn [scoreData set_scoreData snapshot status].
    unfold spec_status, stored, votes, voteDataOf; cbn.
    rewrite Hm. reflexivity.
  - intros [t m u n vd sd] newsId invalid Hm. cbn in Hm. subst m.
    rewrite updateVoteData_after.
    cbn [scoreData set_scoreData snapshot status].
    unfold spec_status, stored, votes, voteDataOf; cbn.
    reflexivity.
Qed.

Lemma classifier_three_ordered_rules_witness :
  status (scoreData (after (updateVoteData "n1" (votes 6 4 0)
                              (constructor noOptions)))) = Fake /\
  status (scoreData (after (updateVoteData "n1" (votes 4 0 0)
                              (constructor noOptions)))) = Insufficient.
Proof.
  destruct classifier_three_ordered_rules as (_ & Hfake & Hins).
  split.
  - apply Hfake; reflexivity.
  - apply Hins; reflexivity.
Defined.

(* ================================================================= *)
(** ** The confidence model *)

(** [Math.round] rounds half up: on a finite [x = n / d] that is not
    already an integer, the result is the integer [r] with
    [r - 1/2 <= x < r + 1/2]. *)
Lemma Math_round_half_up x s m e :
  Prim2SF x = S754_finite s m e -> (e < 0)%Z ->
  exists r : Z,
    Js.Math_round x = Js.of_int s r /\
    ((2 * r - 1) * 2 ^ (- e) <= 2 * Js.signed s m < (2 * r + 1) * 2 ^ (- e))%Z.
Proof.
  intros Hx He. unfold Js.Math_round. rewrite Hx.
  destruct (Z.leb_spec 0 e) as [Hle|_]; [lia|].
  set (d := (2 ^ (- e))%Z). set (n := Js.signed s m).
  assert (Hd : (0 < d)%Z) by (apply Z.pow_pos_nonneg; lia).
  exists ((2 * n + d) / (2 * d))%Z. split; [reflexivity|].
  pose proof (Z.mul_div_le (2 * n + d) (2 * d) ltac:(lia)).
  pose proof (Z.mul_succ_div_gt (2 * n + d) (2 * d) ltac:(lia)).
  nia.
Qed.

Example Math_round_examples :
  (Js.Math_round 2.5, Js.Math_round (-2.5), Js.Math_round 2.4,
   Js.Math_round 0.49999999999999994, Js.Math_round 20,
   Js.Math_floor 2.9, Js.Math_floor (-0.5))
  = (3, -2, 2, 0, 20, 2, -1).
Proof. vm_compute. reflexivity. Qed.

(** The hundredfold is a binary64 product like every other operation:
    with 257 fake and 143 non-fake votes the ratio difference is the
    binary64 number next to 0.285, its hundredfold is
    28.499999999999996, and the confidence is 0.28; with 269 and 131
    the hundredfold of the number next to 0.345 is 34.5 and the
    confidence is 0.35. *)
Example confidence_binary64_ties :
  (114 / 400 * 1 * 100 <? 28.5) = true /\
  calculateConfidence (constructor noOptions) 257 143 = 0.28 /\
  138 / 400 * 1 * 100 = 34.5 /\
  calculateConfidence (constructor noOptions) 269 131 = 0.35.
Proof. repeat split. Qed.

Lemma positive_not_zero x : (0 <? x) = true -> Js.strict_eq x 0 = false.
Proof. apply ltb_eqb_false. Qed.

Lemma saturated_without_minimum total :
  (0 <? total) = true -> Js.Math_min (total / (0 * 5)) 1 = 1.
Proof.
  intros H. change (0 * 5) with 0. rewrite (div_pos_zero _ H).
  vm_compute. reflexivity.
Qed.

(** C2: for a tally with [validVotes = fakeVotes + nonFakeVotes > 0] the
    stored confidence is [ratioDifference * voteCountFactor] rounded to
    two decimals, with [ratioDifference = |fakeVotes - nonFakeVotes| /
    validVotes] and [voteCountFactor = min(validVotes / (minVotes * 5),
    1)]; the factor is 1 when [minVotes] is 0; the rounding is the last
    operation, [Math.round] of the hundredfold divided by 100, and
    [Math.round] rounds half up.  30 fake and 20 non-fake votes with a
    minimum of 5 give 0.2.  All operations are those of binary64
    arithmetic. *)
Theorem confidence_formula_rounded_once :
  (forall this : Calc,
     let vd := voteData this in
     validVotes vd = fakeVotes vd + nonFakeVotes vd ->
     (0 <? validVotes vd) = true ->
     confidence (result (calculateScore this)) =
     round2 (ratioDifference (fakeVotes vd) (nonFakeVotes vd) (validVotes vd)
             * voteCountFactor (validVotes vd) (minVotes this))) /\
  (forall this : Calc,
     let vd := voteData this in
     minVotes this = 0 -> (0 <? validVotes vd) = true ->
     voteCountFactor (validVotes vd) (minVotes this) = 1) /\
  (forall x s m e,
     Prim2SF x = S754_finite s m e -> (e < 0)%Z ->
     exists r : Z,
       Js.Math_round x = Js.of_int s r /\
       ((2 * r - 1) * 2 ^ (- e) <= 2 * Js.signed s m
        < (2 * r + 1) * 2 ^ (- e))%Z) /\
  (forall (this : Calc) newsId invalid,
     minVotes this = 5 ->
     confidence (scoreData (after (updateVoteData newsId (votes 30 20 invalid)
                                     this))) = 0.2).
Proof.
  split; [|split; [|split]].
  - intros this vd Hv Hpos.
    rewrite calculateScore_result. cbn [snapshot confidence].
    unfold calculateConfidence, round2, ratioDifference, voteCountFactor.
    fold vd. rewrite <- Hv.
    rewrite (positive_not_zero _ Hpos). reflexivity.
  - intros this vd Hm Hpos. rewrite Hm. unfold voteCountFactor.
    now apply saturated_without_minimum.
  - apply Math_round_half_up.
  - intros [t m u n vd sd] newsId invalid Hm. cbn in Hm. subst m.
    rewrite updateVoteData_after. cbn [scoreData set_scoreData snapshot confidence].
    vm_compute. reflexivity.
Qed.

Lemma confidence_formula_rounded_once_witness :
  let this := after (updateVoteData "n1" (votes 30 20 5) (constructor noOptions)) in
  confidence (result (calculateScore this)) =
    round2 (ratioDifference 30 20 50 * voteCountFactor 50 5) /\
  voteCountFactor 50 0 = 1 /\
  confidence (scoreData this) = 0.2.
Proof.
  destruct confidence_formula_rounded_once as (Hformula & Hzero & _ & Hex).
  split; [|split].
  - apply (Hformula (after (updateVoteData "n1" (votes 30 20 5)
                              (constructor noOptions)))); reflexivity.
  - apply (Hzero (set_minVotes 0
                    (after (updateVoteData "n1" (votes 30 20 5)
                              (constructor noOptions))))); reflexivity.
  - apply Hex. reflexivity.
Defined.

(* ================================================================= *)
(** ** No valid votes *)

(** A stored [validVotes] of zero was computed from the two counters: a
    [validVotes] taken from the input is truthy, hence not zero. *)
Lemma voteDataOf_zero_valid data :
  Js.strict_eq (validVotes (voteDataOf data)) 0 = true ->
  validVotes (voteDataOf data)
  = fakeVotes (voteDataOf data) + nonFakeVotes (voteDataOf data).
Proof.
  unfold voteDataOf; cbn [validVotes fakeVotes nonFakeVotes].
  destruct (in_validVotes data) as [x|]; cbn [Js.or_else]; [|reflexivity].
  destruct (Js.truthy x) eqn:Hx; [|reflexivity].
  unfold Js.truthy, is_zero, Js.strict_eq in *. intros H.
  change zero with 0 in Hx. rewrite H in Hx. discriminate.
Qed.

Lemma zero_valid_snapshot this :
  validVotes (voteData this)
  = fakeVotes (voteData this) + nonFakeVotes (voteData this) ->
  Js.strict_eq (validVotes (voteData this)) 0 = true ->
  fakeScore (snapshot this) = 0 /\ confidence (snapshot this) = 0 /\
  calculateScore_divisors this = [].
Proof.
  intros Hv Hz. unfold snapshot, calculateScore_divisors, calculateConfidence.
  cbn [fakeScore confidence]. rewrite <- Hv. rewrite Hz.
  unfold Js.gt. unfold Js.strict_eq in Hz.
  rewrite (eqb_ltb_false _ _ Hz). repeat split.
Qed.

(** C7: when the valid-vote count is zero (and is the sum of the two
    counters, as after the constructor, [destroy] and every
    [updateVoteData]) computing the score gives fake score 0 and
    confidence 0, and executes no division at all. *)
Theorem zero_valid_votes_neutral :
  (forall this : Calc,
     let vd := voteData this in
     validVotes vd = fakeVotes vd + nonFakeVotes vd ->
     Js.strict_eq (validVotes vd) 0 = true ->
     fakeScore (result (calculateScore this)) = 0 /\
     confidence (result (calculateScore this)) = 0 /\
     calculateScore_divisors this = []) /\
  (forall newsId data (this : Calc),
     let this' := after (updateVoteData newsId data this) in
     Js.strict_eq (validVotes (voteData this')) 0 = true ->
     fakeScore (scoreData this') = 0 /\ confidence (scoreData this') = 0 /\
     calculateScore_divisors (stored newsId data this) = []) /\
  (forall options,
     let r := calculateScore (constructor options) in
     fakeScore (result r) = 0 /\ confidence (result r) = 0 /\
     calculateScore_divisors (constructor options) = []).
Proof.
  split; [|split].
  - intros this vd Hv Hz. rewrite calculateScore_result.
    now apply zero_valid_snapshot.
  - intros newsId data this this' Hz. subst this'.
    rewrite updateVoteData_after in *. cbn [scoreData voteData set_scoreData] in *.
    apply zero_valid_snapshot; [|exact Hz].
    unfold stored in *. cbn [voteData set_voteData] in *.
    now apply voteDataOf_zero_valid.
  - intros options r. subst r. rewrite calculateScore_result.
    apply zero_valid_snapshot; reflexivity.
Qed.

Lemma zero_valid_votes_neutral_witness :
  let this' := after (updateVoteData "n1" (votes 0 0 3) (constructor noOptions)) in
  fakeScore (scoreData this') = 0 /\ confidence (scoreData this') = 0 /\
  calculateScore_divisors (stored "n1" (votes 0 0 3) (constructor noOptions)) = [].
Proof.
  destruct zero_valid_votes_neutral as (_ & Hupd & _).
  apply (Hupd "n1"%string (votes 0 0 3) (constructor noOptions)). reflexivity.
Defined.

(* ================================================================= *)
(** ** Recomputation and the status-change callback *)

(** C3: a second [calculateScore] with the tally and the policy
    unchanged leaves the instance as the first left it, returns the same
    snapshot, and calls only [onScoreUpdate]; in every evaluation
    [onStatusChange] is called exactly when the new status differs from
    the previous one, once, with the new and the old status. *)
Theorem recompute_idempotent_no_reemit :
  (forall this : Calc,
     let r1 := calculateScore this in
     let r2 := calculateScore (after r1) in
     result r2 = result r1 /\
     after r2 = after r1 /\
     events r2 = [ScoreUpdate (result r1)] /\
     filter is_StatusChange (events r2) = []) /\
  (forall this : Calc,
     let r := calculateScore this in
     let new := status (result r) in
     let old := status (scoreData this) in
     filter is_StatusChange (events r) =
     (if Status_eqb new old then [] else [StatusChange new old])) /\
  (forall newsId data (this : Calc),
     let r1 := updateVoteData newsId data this in
     let r2 := updateVoteData newsId data (after r1) in
     after r2 = after r1 /\ filter is_StatusChange (events r2) = []).
Proof.
  split; [|split].
  - intros this r1 r2. subst r1 r2.
    rewrite !calculateScore_result, !calculateScore_events, !calculateScore_after.
    rewrite !snapshot_set_scoreData. cbn [scoreData set_scoreData].
    rewrite Status_eqb_refl. repeat split.
  - intros this r new old. subst r new old.
    rewrite calculateScore_result, calculateScore_events. cbn [filter is_StatusChange].
    destruct (Status_eqb _ _); reflexivity.
  - intros newsId data this r1 r2. subst r1 r2.
    rewrite updateVoteData_events, !updateVoteData_after, calculateScore_events.
    split; [reflexivity|].
    unfold stored. cbn [scoreData set_scoreData set_voteData set_currentNewsId
                        voteData status snapshot].
    rewrite Status_eqb_refl. reflexivity.
Qed.

(* ================================================================= *)
(** ** The policy setters *)

(** After [updateVoteData] the stored snapshot is the one of the stored
    tally and policy. *)
Lemma updateVoteData_snapshot_current newsId data this :
  let this' := after (updateVoteData newsId data this) in
  scoreData this' = snapshot this'.
Proof. cbv zeta. rewrite updateVoteData_after. reflexivity. Qed.


Lemma setThreshold_accepted t this :
  (0 <=? t) = true -> (t <=? 1) = true ->
  after (setThreshold t this) = after (calculateScore (set_threshold t this)) /\
  events (setThreshold t this) = events (calculateScore (set_threshold t this)).
Proof.
  intros H0 H1. unfold setThreshold, Js.ge, Js.le. rewrite H0, H1. cbn [andb].
  cbv [bind modify get put ret after events fst snd].
  destruct (calculateScore _) as [[sd c] ev]. cbn.
  now rewrite app_nil_r.
Qed.

(** C8: an accepted [setThreshold] stores the threshold and recomputes
    the snapshot at once.  On an instance with threshold 0.6 whose
    current snapshot has fake score 0.55 and status 'non-fake',
    [setThreshold(0.5)] makes the status 'fake' and calls
    [onStatusChange] exactly once, with ('fake', 'non-fake'). *)
Theorem setThreshold_reclassifies :
  (forall t (this : Calc),
     (0 <=? t) = true -> (t <=? 1) = true ->
     after (setThreshold t this) = after (calculateScore (set_threshold t this)) /\
     events (setThreshold t this) = events (calculateScore (set_threshold t this)) /\
     threshold (after (setThreshold t this)) = t) /\
  (forall this : Calc,
     threshold this = 0.6 ->
     scoreData this = snapshot this ->
     fakeScore (scoreData this) = 0.55 ->
     status (scoreData this) = NonFake ->
     let r := setThreshold 0.5 this in
     status (scoreData (after r)) = Fake /\
     fakeScore (scoreData (after r)) = 0.55 /\
     filter is_StatusChange (events r) = [StatusChange Fake NonFake]).
Proof.
  split.
  - intros t this H0 H1.
    destruct (setThreshold_accepted t this H0 H1) as [Ha He].
    rewrite Ha, He. repeat split. now rewrite calculateScore_after.
  - intros this Ht Hsd Hfs Hst r. subst r.
    destruct (setThreshold_accepted 0.5 this eq_refl eq_refl) as [Ha He].
    rewrite Ha, He, calculateScore_after, calculateScore_events.
    cbn [scoreData set_scoreData].
    assert (Hf : fakeScore (snapshot (set_threshold 0.5 this)) = 0.55).
    { rewrite <- Hfs, Hsd. reflexivity. }
    assert (Hs : status (snapshot (set_threshold 0.5 this)) = Fake).
    { rewrite Hsd in Hst. revert Hst Hf.
      unfold snapshot, spec_status. cbn [status fakeScore set_threshold
        voteData minVotes threshold].
      destruct (validVotes (voteData this) <? minVotes this); [discriminate|].
      intros _ ->. reflexivity. }
    rewrite Hs, Hf. cbn [status scoreData set_threshold]. rewrite Hst.
    repeat split.
Qed.

Lemma setThreshold_reclassifies_witness :
  let this := after (updateVoteData "n1" (votes 11 9 0) (constructor noOptions)) in
  let r := setThreshold 0.5 this in
  status (scoreData this) = NonFake /\
  status (scoreData (after r)) = Fake /\
  fakeScore (scoreData (after r)) = 0.55 /\
  filter is_StatusChange (events r) = [StatusChange Fake NonFake].
Proof.
  destruct setThreshold_reclassifies as (_ & Hflip).
  split; [reflexivity|].
  apply (Hflip (after (updateVoteData "n1" (votes 11 9 0) (constructor noOptions))));
    reflexivity.
Defined.

Lemma nan_not_above x y : is_nan x = true -> (y <=? x) = false.
Proof.
  unfold is_nan. rewrite FloatAxioms.eqb_spec, FloatAxioms.leb_spec.
  unfold SFeqb, SFleb.
  destruct (Prim2SF x) as [s|s| |s m e]; cbn.
  - discriminate.
  - destruct s; discriminate.
  - intros _. destruct (Prim2SF y) as [?|[]| |]; reflexivity.
  - rewrite Z.compare_refl, Pos.compare_cont_refl. destruct s; discriminate.
Qed.

(** C9: [setThreshold] with a threshold below 0, above 1 or [NaN], and
    [setMinVotes] with a negative minimum or [NaN], change nothing: the
    instance (policy, vote data, score data) is the one before the call
    and no callback is called. *)
Theorem out_of_range_policy_rejected :
  (forall t (this : Calc),
     (t <? 0) = true \/ (1 <? t) = true \/ is_nan t = true ->
     setThreshold t this = (tt, this, [])) /\
  (forall m (this : Calc),
     (m <? 0) = true \/ is_nan m = true ->
     setMinVotes m this = (tt, this, [])).
Proof.
  split.
  - intros t this H. unfold setThreshold, Js.ge, Js.le.
    destruct H as [H|[H|H]].
    + rewrite (ltb_leb_false _ _ H). reflexivity.
    + rewrite (ltb_leb_false _ _ H). rewrite andb_false_r. reflexivity.
    + rewrite (nan_not_above _ _ H). reflexivity.
  - intros m this H. unfold setMinVotes, Js.ge.
    destruct H as [H|H].
    + rewrite (ltb_leb_false _ _ H). reflexivity.
    + rewrite (nan_not_above _ _ H). reflexivity.
Qed.

Lemma out_of_range_policy_rejected_witness :
  let this := after (updateVoteData "n1" (votes 6 4 0) (constructor noOptions)) in
  setThreshold 1.5 this = (tt, this, []) /\
  setThreshold (-0.1) this = (tt, this, []) /\
  setMinVotes (-1) this = (tt, this, []).
Proof.
  destruct out_of_range_policy_rejected as (Ht & Hm).
  split; [|split].
  - apply Ht. right; left; reflexivity.
  - apply Ht. left; reflexivity.
  - apply Hm. left; reflexivity.
Defined.

(* ================================================================= *)
(** ** The constructor *)

Lemma or_else_truthy v d : Js.truthy d = true -> Js.truthy (Js.or_else v d) = true.
Proof.
  intros Hd. destruct v as [x|]; cbn; [|exact Hd].
  destruct (Js.truthy x) eqn:Hx; assumption.
Qed.

(** C10: the constructor replaces a falsy [threshold] or [minVotes]
    option, 0 included, by the default 0.6 or 5, so the policy of a new
    instance is never zero; every other number is stored as it is,
    whatever its range; a zero policy value is installed by
    [setThreshold(0)] or [setMinVotes(0)]. *)
Theorem constructor_falsy_defaults :
  (forall u,
     threshold (constructor (mkOptions (Some 0) (Some 0) u)) = 0.6 /\
     minVotes (constructor (mkOptions (Some 0) (Some 0) u)) = 5) /\
  (forall options,
     Js.truthy (threshold (constructor options)) = true /\
     Js.truthy (minVotes (constructor options)) = true) /\
  (forall t m u,
     Js.truthy t = true -> Js.truthy m = true ->
     threshold (constructor (mkOptions (Some t) (Some m) u)) = t /\
     minVotes (constructor (mkOptions (Some t) (Some m) u)) = m) /\
  (forall options,
     threshold (after (setThreshold 0 (constructor options))) = 0 /\
     minVotes (after (setMinVotes 0 (constructor options))) = 0).
Proof.
  split; [|split; [|split]].
  - intros u. split; reflexivity.
  - intros options. split; apply or_else_truthy; reflexivity.
  - intros t m u Ht Hm. cbn. rewrite Ht, Hm. split; reflexivity.
  - intros options. split.
    + destruct (setThreshold_accepted 0 (constructor options) eq_refl eq_refl)
        as [Ha _].
      rewrite Ha, calculateScore_after. reflexivity.
    + unfold setMinVotes, Js.ge. change (0 <=? 0) with true. cbv iota.
      cbv [bind modify get put ret after fst snd].
      pose proof (calculateScore_after (set_minVotes 0 (constructor options))) as H.
      unfold after in H.
      destruct (calculateScore _) as [[sd c] ev]. cbn in *. rewrite H. reflexivity.
Qed.

Lemma constructor_falsy_defaults_witness :
  threshold (constructor (mkOptions (Some 7) (Some (-3)) None)) = 7 /\
  minVotes (constructor (mkOptions (Some 7) (Some (-3)) None)) = -3.
Proof.
  destruct constructor_falsy_defaults as (_ & _ & Hstore & _).
  apply Hstore; reflexivity.
Defined.

(* ================================================================= *)
(** ** Stored tallies *)

Lemma float_neq a b c : (a <? c) = true -> (b <? c) = false -> a <> b.
Proof. intros Ha Hb ->. congruence. Qed.

Lemma resume_resolved newsId random1 random2 this :
  let read := mockResult newsId random1 random2 this in
  let r := updateVoteData newsId (asVoteInput (data read)) this in
  recalculateScore_resume newsId Resolved random1 random2 this
  = (Return read, after r, events r ++ [Loading false]).
Proof.
  intros read r. unfold recalculateScore_resume, showLoading.
  cbv [bind get emit ret]. fold read. fold r.
  destruct r as [[[] c] ev]. cbn. now rewrite app_nil_r.
Qed.

Lemma resume_rejected newsId error random1 random2 this :
  recalculateScore_resume newsId (Rejected error) random1 random2 this
  = (Throw error, this, [Loading false]).
Proof. reflexivity. Qed.

Lemma recalculateScore_resolved newsId random1 random2 this :
  let read := mockResult newsId random1 random2 this in
  let r := updateVoteData newsId (asVoteInput (data read)) this in
  recalculateScore newsId Resolved random1 random2 this
  = (Return read, after r, Loading true :: events r ++ [Loading false]).
Proof.
  intros read r. unfold recalculateScore, recalculateScore_enter, showLoading.
  unfold bind at 1. cbv [emit].
  rewrite resume_resolved. reflexivity.
Qed.

(** C4, the claim as stated fails: an input that carries its own
    [validVotes] and [totalVotes] has them stored as they are, and the
    replacement made by a recalculation stores [totalVotes = 0]. *)
Lemma derived_fields_counterexample :
  (let vd := voteData (after (updateVoteData "n1" inconsistentInput
                                (constructor noOptions))) in
   validVotes vd = 7 /\ fakeVotes vd + nonFakeVotes vd = 2 /\
   validVotes vd <> fakeVotes vd + nonFakeVotes vd /\
   totalVotes vd <> validVotes vd + invalidVotes vd) /\
  (let this := after (updateVoteData "n1" (generateMockData 50 0.6)
                        (constructor noOptions)) in
   let vd := voteData (after (recalculateScore "n1" Resolved 0.9 0.7 this)) in
   totalVotes vd = 0 /\ validVotes vd + invalidVotes vd = 58 /\
   totalVotes vd <> validVotes vd + invalidVotes vd).
Proof.
  split.
  - cbv zeta. split; [reflexivity|]. split; [reflexivity|]. split.
    + apply not_eq_sym, (float_neq _ _ 3); reflexivity.
    + apply not_eq_sym, (float_neq _ _ 8); reflexivity.
  - cbv zeta. split; [vm_compute; reflexivity|].
    split; [vm_compute; reflexivity|].
    apply (float_neq _ _ 1); vm_compute; reflexivity.
Qed.

(** C4 as amended: [updateVoteData] stores the three counters of the
    input (0 for a missing or falsy one); the stored [validVotes] is the
    input's [validVotes] when that is a truthy number and otherwise the
    sum of the stored [fakeVotes] and [nonFakeVotes]; so [validVotes =
    fakeVotes + nonFakeVotes] holds whenever the input has no
    [validVotes], as in the replacement made by [recalculateScore]; a
    truthy [totalVotes] of the input is stored as given, so both
    equations hold for an input whose own derived fields are consistent,
    such as [generateMockData(50, 0.6)]. *)
Theorem updateVoteData_derived_fields :
  (forall newsId data (this : Calc),
     let vd := voteData (after (updateVoteData newsId data this)) in
     fakeVotes vd = Js.or_else (in_fakeVotes data) 0 /\
     nonFakeVotes vd = Js.or_else (in_nonFakeVotes data) 0 /\
     invalidVotes vd = Js.or_else (in_invalidVotes data) 0 /\
     validVotes vd
     = Js.or_else (in_validVotes data) (fakeVotes vd + nonFakeVotes vd)) /\
  (forall newsId data (this : Calc),
     in_validVotes data = None ->
     let vd := voteData (after (updateVoteData newsId data this)) in
     validVotes vd = fakeVotes vd + nonFakeVotes vd) /\
  (forall newsId random1 random2 (this : Calc),
     let vd := voteData (after (recalculateScore newsId Resolved random1 random2
                                  this)) in
     validVotes vd = fakeVotes vd + nonFakeVotes vd) /\
  (forall newsId data (this : Calc) v t,
     in_validVotes data = Some v -> Js.truthy v = true ->
     in_totalVotes data = Some t -> Js.truthy t = true ->
     let vd := voteData (after (updateVoteData newsId data this)) in
     validVotes vd = v /\ totalVotes vd = t) /\
  (forall newsId (this : Calc),
     let vd := voteData (after (updateVoteData newsId (generateMockData 50 0.6)
                                  this)) in
     validVotes vd = fakeVotes vd + nonFakeVotes vd /\
     totalVotes vd = validVotes vd + invalidVotes vd).
Proof.
  split; [|split; [|split; [|split]]].
  - intros newsId data this vd. subst vd. rewrite updateVoteData_after.
    repeat split.
  - intros newsId data this Hnone vd. subst vd. rewrite updateVoteData_after.
    unfold stored, voteDataOf. cbn [voteData set_scoreData set_voteData
      validVotes fakeVotes nonFakeVotes].
    rewrite Hnone. reflexivity.
  - intros newsId random1 random2 this vd. subst vd.
    rewrite recalculateScore_resolved. cbv zeta. cbn [after fst snd].
    fold (after (updateVoteData newsId
            (asVoteInput (data (mockResult newsId random1 random2 this))) this)).
    rewrite updateVoteData_after. reflexivity.
  - intros newsId data this v t Hv Htv Ht Htt vd. subst vd.
    rewrite updateVoteData_after.
    unfold stored, voteDataOf. cbn [voteData set_scoreData set_voteData
      validVotes totalVotes].
    rewrite Hv, Ht. cbn [Js.or_else]. rewrite Htv, Htt. split; reflexivity.
  - intros newsId this vd. subst vd. rewrite updateVoteData_after.
    split; vm_compute; reflexivity.
Qed.

Lemma updateVoteData_derived_fields_witness :
  let vd := voteData (after (updateVoteData "n1" (votes 30 20 5)
                               (constructor noOptions))) in
  validVotes vd = fakeVotes vd + nonFakeVotes vd.
Proof.
  destruct updateVoteData_derived_fields as (_ & Hnone & _).
  apply (Hnone "n1"%string (votes 30 20 5) (constructor noOptions)). reflexivity.
Defined.

(* ================================================================= *)
(** ** Recalculation *)

Import EventLoop.

(** C5: when the awaited request of [recalculateScore] fails, the call
    throws that error to its caller, the instance (vote data, score
    data and policy) is the one before the call, neither callback is
    called, the loading state is switched on once and off once, and the
    failed call leaves no suspended call behind: nothing is tried
    again. *)
Theorem recalculation_failure_keeps_state :
  (forall newsId error random1 random2 (this : Calc),
     let r := recalculateScore newsId (Rejected error) random1 random2 this in
     result r = Throw error /\
     after r = this /\
     voteData (after r) = voteData this /\
     scoreData (after r) = scoreData this /\
     events r = [Loading true; Loading false]) /\
  (forall (this : Calc) newsId error random1 random2,
     let w := run [Call newsId; Fire 0%nat (Rejected error) random1 random2]
                (start this) in
     calc w = this /\ suspended w = [] /\
     log w = [Loading true; Loading false]).
Proof.
  split.
  - intros newsId error random1 random2 this r. subst r. repeat split.
  - intros this newsId error random1 random2 w. subst w. repeat split.
Qed.

Lemma fire_resolved w i newsId random1 random2 :
  nth_error (suspended w) i = Some newsId ->
  voteData (calc (step w (Fire i Resolved random1 random2)))
  = voteDataOf (asVoteInput (data (mockResult newsId random1 random2 (calc w)))).
Proof.
  intros Hi. cbn [step]. rewrite Hi. cbn [calc].
  rewrite resume_resolved. cbv zeta. cbn [after fst snd].
  fold (after (updateVoteData newsId
          (asVoteInput (data (mockResult newsId random1 random2 (calc w))))
          (calc w))).
  rewrite updateVoteData_after. reflexivity.
Qed.

Lemma step_tally w t :
  voteData (calc (step w t)) = voteData (calc w) \/
  wholeRead (voteData (calc (step w t))).
Proof.
  destruct t as [newsId|i [|error] random1 random2].
  - left. reflexivity.
  - destruct (nth_error (suspended w) i) as [newsId|] eqn:Hi.
    + right. rewrite (fire_resolved _ _ _ _ _ Hi).
      now exists newsId, random1, random2, (calc w).
    + left. cbn [step]. rewrite Hi. reflexivity.
  - left. cbn [step].
    destruct (nth_error (suspended w) i) as [newsId|]; reflexivity.
Qed.

Lemma run_tally tasks : forall w,
  voteData (calc (run tasks w)) = voteData (calc w) \/
  wholeRead (voteData (calc (run tasks w))).
Proof.
  induction tasks as [|t tasks IH]; intros w.
  - left. reflexivity.
  - cbn [run fold_left]. fold (run tasks (step w t)).
    destruct (IH (step w t)) as [Heq|Hread]; [|now right].
    rewrite Heq. apply step_tally.
Qed.

(** C6, the claim as stated fails: nothing limits the recalculations
    in flight for one article; after two calls both are suspended. *)
Lemma one_in_flight_counterexample :
  let w := run [Call "n1"; Call "n1"] (start (constructor noOptions)) in
  inFlight "n1" w = 2%nat /\ ~ (inFlight "n1" w <= 1)%nat.
Proof.
  cbv zeta. assert (H : inFlight "n1"
    (run [Call "n1"; Call "n1"] (start (constructor noOptions))) = 2%nat)
    by (vm_compute; reflexivity).
  split; [exact H|]. rewrite H. lia.
Qed.

(** C6 as amended: starting a call leaves the vote data alone, and each
    resumed call replaces the vote data by one whole object built from
    its own response data, and runs to its end before any other code;
    so whatever calls and timers are interleaved, the vote data is at every point the initial one or, in
    all its fields, the tally of a single read; when two calls for one
    article overlap and both requests succeed, in either order of
    completion, the vote data after both is the tally of the read of
    the call that completed last.  The calls are not limited to one in
    flight: both are suspended at the same time. *)
Theorem overlapping_recalculations_whole_read :
  (forall w newsId, voteData (calc (step w (Call newsId))) = voteData (calc w)) /\
  (forall w i newsId random1 random2,
     nth_error (suspended w) i = Some newsId ->
     voteData (calc (step w (Fire i Resolved random1 random2)))
     = voteDataOf (asVoteInput
                     (data (mockResult newsId random1 random2 (calc w))))) /\
  (forall tasks w,
     voteData (calc (run tasks w)) = voteData (calc w) \/
     wholeRead (voteData (calc (run tasks w)))) /\
  (forall (this : Calc) newsId i a1 a2 b1 b2,
     (i < 2)%nat ->
     let w0 := run [Call newsId; Call newsId] (start this) in
     let w1 := step w0 (Fire i Resolved a1 a2) in
     let w2 := step w1 (Fire 0%nat Resolved b1 b2) in
     let A := data (mockResult newsId a1 a2 (calc w0)) in
     let B := data (mockResult newsId b1 b2 (calc w1)) in
     inFlight newsId w0 = 2%nat /\
     voteData (calc w1) = voteDataOf (asVoteInput A) /\
     voteData (calc w2) = voteDataOf (asVoteInput B) /\
     suspended w2 = []).
Proof.
  split; [reflexivity|].
  split; [intros; now apply fire_resolved|].
  split; [intros; apply run_tally|].
  intros this newsId i a1 a2 b1 b2 Hi w0 w1 w2 A B.
  assert (Hs0 : suspended w0 = [newsId; newsId]) by reflexivity.
  assert (H0 : nth_error (suspended w0) i = Some newsId).
  { rewrite Hs0. destruct i as [|[|i]]; [reflexivity|reflexivity|lia]. }
  assert (Hs1 : suspended w1 = [newsId]).
  { subst w1. cbn [step]. rewrite H0. cbn [suspended]. rewrite Hs0.
    destruct i as [|[|i]]; [reflexivity|reflexivity|lia]. }
  assert (H1 : nth_error (suspended w1) 0%nat = Some newsId) by now rewrite Hs1.
  split; [|split; [|split]].
  - unfold inFlight. rewrite Hs0. cbn [count_occ].
    destruct (string_dec newsId newsId); [reflexivity|congruence].
  - apply fire_resolved, H0.
  - apply fire_resolved, H1.
  - subst w2. cbn [step]. rewrite H1. cbn [suspended]. rewrite Hs1. reflexivity.
Qed.

Lemma overlapping_recalculations_whole_read_witness :
  let this := after (updateVoteData "n1" (votes 10 5 0) (constructor noOptions)) in
  let w0 := run [Call "n1"; Call "n1"] (start this) in
  let w1 := step w0 (Fire 1%nat Resolved 0.9 0.7) in
  let w2 := step w1 (Fire 0%nat Resolved 0.1 0.2) in
  voteData (calc w2)
  = voteDataOf (asVoteInput (data (mockResult "n1" 0.1 0.2 (calc w1)))).
Proof.
  destruct overlapping_recalculations_whole_read as (_ & _ & _ & Htwo).
  cbv zeta.
  apply (Htwo (after (updateVoteData "n1" (votes 10 5 0) (constructor noOptions)))
           "n1"%string 1%nat 0.9 0.7 0.1 0.2).
  lia.
Defined.

(* ================================================================= *)
(** ** The order of binary64 numbers *)

Ltac order_cases :=
  repeat match goal with
  | |- context [(?a ?= ?b)%Z] => destruct (Z.compare_spec a b)
  | |- context [(?a ?= ?b)%positive] => destruct (Pos.compare_spec a b)
  end.

Ltac spec_float_cases x y z :=
  destruct x as [? | ? | | ? ? ?], y as [? | ? | | ? ? ?],
           z as [? | ? | | ? ? ?]; cbn;
  try discriminate; try reflexivity;
  repeat match goal with s : bool |- _ => destruct s end;
  cbn; try discriminate; try reflexivity;
  rewrite ?Pos.compare_cont_spec; cbn [Pos.switch_Eq];
  order_cases; cbn; try discriminate; try reflexivity; try lia.

Lemma SFleb_trans x y z :
  SFleb x y = true -> SFleb y z = true -> SFleb x z = true.
Proof. unfold SFleb. spec_float_cases x y z. Qed.

Lemma SFltb_leb_trans x y z :
  SFltb x y = true -> SFleb y z = true -> SFltb x z = true.
Proof. unfold SFltb, SFleb. spec_float_cases x y z. Qed.

Lemma leb_trans a b c :
  (a <=? b) = true -> (b <=? c) = true -> (a <=? c) = true.
Proof. rewrite !FloatAxioms.leb_spec. apply SFleb_trans. Qed.

Lemma ltb_leb_trans a b c :
  (a <? b) = true -> (b <=? c) = true -> (a <? c) = true.
Proof.
  rewrite !FloatAxioms.ltb_spec, FloatAxioms.leb_spec. apply SFltb_leb_trans.
Qed.

(* ================================================================= *)
(** ** What one call does *)

Lemma unit_triple (r : unit * Calc * list Event) :
  r = (tt, after r, events r).
Proof. destruct r as [[[] c] ev]. reflexivity. Qed.

Lemma calculateScore_triple this :
  calculateScore this
  = (snapshot this, set_scoreData (snapshot this) this,
     events (calculateScore this)).
Proof.
  pose proof (calculateScore_result this) as Hr.
  pose proof (calculateScore_after this) as Ha.
  destruct (calculateScore this) as [[sd c] ev].
  cbn in Hr, Ha. subst sd c. reflexivity.
Qed.

Lemma then_calculateScore (f : Calc -> Calc) this :
  (modify f ;; calculateScore ;; ret tt) this
  = (tt, set_scoreData (snapshot (f this)) (f this),
     events (calculateScore (f this))).
Proof.
  cbv [bind modify get put ret]. rewrite calculateScore_triple.
  cbn. now rewrite app_nil_r.
Qed.

(** Every call either runs [calculateScore] once on the instance with
    the new value stored, or leaves the instance as it is ([destroy]:
    as constructed, with the policy kept) and calls no callback. *)
Lemma call_spec op this :
  call op this =
  match recomputed op this with
  | Some c =>
      (tt, set_scoreData (snapshot c) c,
       loadingBefore op ++ events (calculateScore c) ++ loadingAfter op)
  | None => (tt, untouched op this, loadingBefore op ++ loadingAfter op)
  end.
Proof.
  destruct op as [newsId data| |t|m| |newsId [|error] random1 random2];
    cbn [call recomputed untouched loadingBefore loadingAfter app].
  - rewrite (unit_triple (updateVoteData newsId data this)).
    rewrite updateVoteData_after, updateVoteData_events.
    now rewrite app_nil_r.
  - unfold bind. rewrite calculateScore_triple. cbn.
    now rewrite !app_nil_r.
  - unfold setThreshold. destruct (Js.ge t 0 && Js.le t 1).
    + rewrite then_calculateScore. now rewrite app_nil_r.
    + reflexivity.
  - unfold setMinVotes. destruct (Js.ge m 0).
    + rewrite then_calculateScore. now rewrite app_nil_r.
    + reflexivity.
  - reflexivity.
  - unfold bind at 1. rewrite recalculateScore_resolved. cbv zeta.
    rewrite updateVoteData_after, updateVoteData_events. cbn.
    now rewrite app_nil_r.
  - reflexivity.
Qed.

Lemma recomputed_scoreData op this c :
  recomputed op this = Some c -> scoreData c = scoreData this.
Proof.
  destruct op as [newsId data| |t|m| |newsId [|error] random1 random2];
    cbn [recomputed]; intros H;
    try (injection H as <-; reflexivity); try discriminate.
  - destruct (_ && _); [injection H as <-; reflexivity|discriminate].
  - destruct (Js.ge m 0); [injection H as <-; reflexivity|discriminate].
Qed.

Lemma calls_cons op ops this :
  after (calls (op :: ops) this) = after (calls ops (after (call op this))) /\
  events (calls (op :: ops) this)
  = events (call op this) ++ events (calls ops (after (call op this))).
Proof.
  cbn [calls]. unfold bind.
  destruct (call op this) as [[[] c] ev]. cbn.
  destruct (calls ops c) as [[[] c'] ev']. split; reflexivity.
Qed.

Lemma calls_invariant (P : Calc -> Prop) :
  (forall op this, P this -> P (after (call op this))) ->
  forall ops this, P this -> P (after (calls ops this)).
Proof.
  intros Hstep ops. induction ops as [|op ops IH]; intros this HP.
  - exact HP.
  - destruct (calls_cons op ops this) as [-> _]. apply IH, Hstep, HP.
Qed.

Lemma spec_status_not_pending v m fs t : spec_status v m fs t <> Pending.
Proof.
  unfold spec_status. destruct (v <? m); [discriminate|].
  destruct (t <=? fs); discriminate.
Qed.

(* ================================================================= *)
(** ** Invariants of an instance under any sequence of calls *)

Lemma call_current op this : current this -> current (after (call op this)).
Proof.
  intros Hc. rewrite call_spec.
  destruct (recomputed op this) as [c|]; cbn [after fst snd].
  - repeat split. right. reflexivity.
  - destruct op; cbn [untouched]; try exact Hc.
    repeat split. left. reflexivity.
Qed.

(** X1: whatever methods are called on a new instance, in whatever
    order and with whatever arguments, the stored fake score and
    confidence are the ones [calculateScore] would compute from the
    stored tally and policy, and the stored status is that status too
    or still the initial 'pending'. *)
Theorem score_data_never_stale options ops :
  let this := after (calls ops (constructor options)) in
  fakeScore (scoreData this) = fakeScore (snapshot this) /\
  confidence (scoreData this) = confidence (snapshot this) /\
  (status (scoreData this) = Pending \/
   status (scoreData this) = status (snapshot this)).
Proof.
  apply (calls_invariant current call_current).
  repeat split. left. reflexivity.
Qed.

Lemma call_pending op this :
  (status (scoreData this) = Pending -> pristine this) ->
  status (scoreData (after (call op this))) = Pending ->
  pristine (after (call op this)).
Proof.
  intros Hp. rewrite call_spec.
  destruct (recomputed op this) as [c|]; cbn [after fst snd].
  - cbn [scoreData set_scoreData snapshot status]. intros H.
    now apply spec_status_not_pending in H.
  - destruct op; cbn [untouched]; try exact Hp.
    intros _. repeat split.
Qed.

(** X2: [calculateScore] never computes 'pending'; on an instance
    reached from the constructor by any calls, the status is 'pending'
    only while the instance is as constructed or as [destroy] leaves it:
    empty tally, zero scores, no article. *)
Theorem pending_only_when_pristine :
  (forall this : Calc, status (result (calculateScore this)) <> Pending) /\
  (forall options ops,
     let this := after (calls ops (constructor options)) in
     status (scoreData this) = Pending ->
     voteData this = emptyVoteData /\ scoreData this = emptyScoreData /\
     currentNewsId this = None).
Proof.
  split.
  - intros this. rewrite calculateScore_result. apply spec_status_not_pending.
  - intros options ops.
    apply (calls_invariant
             (fun this => status (scoreData this) = Pending -> pristine this)).
    + intros op this. apply call_pending.
    + intros _. repeat split.
Qed.

Lemma pending_only_when_pristine_witness :
  let this := after (calls [UpdateVoteData "n1" (votes 6 4 0); Destroy]
                       (constructor noOptions)) in
  voteData this = emptyVoteData /\ scoreData this = emptyScoreData /\
  currentNewsId this = None.
Proof.
  destruct pending_only_when_pristine as (_ & H).
  apply (H noOptions [UpdateVoteData "n1" (votes 6 4 0); Destroy]).
  reflexivity.
Defined.

Lemma call_validPolicy op this :
  validPolicy this = true -> validPolicy (after (call op this)) = true.
Proof.
  intros Hv. rewrite call_spec.
  destruct op as [newsId data| |t|m| |newsId [|error] random1 random2];
    cbn [recomputed untouched after fst snd]; try exact Hv.
  - destruct (Js.ge t 0 && Js.le t 1) eqn:Ht; cbn [after fst snd]; [|exact Hv].
    unfold validPolicy in *. cbn [threshold minVotes set_scoreData set_threshold].
    rewrite Ht. apply andb_true_iff in Hv. now destruct Hv as [_ ->].
  - destruct (Js.ge m 0) eqn:Hm; cbn [after fst snd]; [|exact Hv].
    unfold validPolicy in *. cbn [threshold minVotes set_scoreData set_minVotes].
    rewrite Hm. apply andb_true_iff in Hv. destruct Hv as [-> _]. reflexivity.
Qed.

(** X3: the default policy is in range, and a policy in range stays in
    range under any sequence of calls: the threshold stays in [0, 1] and
    the minimum stays non-negative. *)
Theorem policy_stays_in_range :
  validPolicy (constructor noOptions) = true /\
  (forall ops (this : Calc),
     validPolicy this = true -> validPolicy (after (calls ops this)) = true).
Proof.
  split; [reflexivity|].
  intros ops this. apply (calls_invariant (fun c => validPolicy c = true)).
  intros op c. apply call_validPolicy.
Qed.

Lemma policy_stays_in_range_witness :
  validPolicy
    (after (calls [SetThreshold 0.5; SetThreshold 7; SetMinVotes (-1);
                   UpdateVoteData "n1" (votes 6 4 0); SetMinVotes 0]
              (constructor noOptions))) = true.
Proof.
  destruct policy_stays_in_range as (Hdefault & Hkeep).
  apply Hkeep. exact Hdefault.
Defined.

Lemma clean_or_else v : clean (Js.or_else v 0).
Proof.
  destruct v as [x|]; cbn; [|now right].
  destruct (Js.truthy x) eqn:Hx; [now left|now right].
Qed.

Lemma clean_not_nan x : clean x -> is_nan x = false /\ x <> neg_zero.
Proof.
  intros [H| ->].
  - unfold Js.truthy in H. apply negb_true_iff, orb_false_iff in H.
    destruct H as [Hz Hn]. split; [exact Hn|].
    intros ->. vm_compute in Hz. discriminate.
  - split; [reflexivity|]. intros H.
    apply (f_equal (fun x => 1 / x <? 0)) in H. vm_compute in H. discriminate.
Qed.

Lemma cleanTally_voteDataOf data (c : Calc) :
  voteData c = voteDataOf data -> cleanTally c.
Proof.
  intros H. unfold cleanTally. rewrite H. cbn.
  repeat split; apply clean_or_else.
Qed.

Lemma call_cleanTally op this :
  cleanTally this -> cleanTally (after (call op this)).
Proof.
  intros Hc. rewrite call_spec.
  destruct op as [newsId data| |t|m| |newsId [|error] random1 random2];
    cbn [recomputed untouched after fst snd]; try exact Hc.
  - now apply (cleanTally_voteDataOf data).
  - destruct (Js.ge t 0 && Js.le t 1); exact Hc.
  - destruct (Js.ge m 0); exact Hc.
  - repeat split; now right.
  - now apply (cleanTally_voteDataOf
                 (asVoteInput (data (mockResult newsId random1 random2 this)))).
Qed.

(** X4: the four stored counters are never [NaN] and never [-0]: a
    missing, [NaN] or zero input counter is stored as [+0], on every
    instance reached from the constructor by any calls. *)
Theorem stored_counters_are_numbers options ops :
  let vd := voteData (after (calls ops (constructor options))) in
  (is_nan (fakeVotes vd) = false /\ fakeVotes vd <> neg_zero) /\
  (is_nan (nonFakeVotes vd) = false /\ nonFakeVotes vd <> neg_zero) /\
  (is_nan (totalVotes vd) = false /\ totalVotes vd <> neg_zero) /\
  (is_nan (invalidVotes vd) = false /\ invalidVotes vd <> neg_zero).
Proof.
  assert (H : cleanTally (after (calls ops (constructor options)))).
  { apply (calls_invariant cleanTally call_cleanTally).
    repeat split; now right. }
  destruct H as (H1 & H2 & H3 & H4).
  cbv zeta. repeat split; now apply clean_not_nan.
Qed.

(* ================================================================= *)
(** ** Following the status through the notifications *)

Lemma follow_app known evs1 evs2 :
  follow known (evs1 ++ evs2) =
  match follow known evs1 with
  | Some st => follow st evs2
  | None => None
  end.
Proof.
  revert known. induction evs1 as [|e evs1 IH]; intros known; [reflexivity|].
  destruct e as [sd|newStatus oldStatus|show]; cbn [app follow]; auto.
  destruct (_ && _); auto.
Qed.

Lemma follow_calculateScore this :
  follow (status (scoreData this)) (events (calculateScore this))
  = Some (status (snapshot this)).
Proof.
  rewrite calculateScore_events. cbn [follow].
  destruct (Status_eqb_spec (status (snapshot this)) (status (scoreData this)))
    as [Heq|Hne].
  - cbn [follow]. congruence.
  - cbn [follow]. rewrite Status_eqb_refl. cbn [andb].
    destruct (Status_eqb_spec (status (snapshot this))
                (status (scoreData this))); [contradiction|reflexivity].
Qed.

Lemma follow_loading known op evs :
  follow known (loadingBefore op ++ evs) = follow known evs /\
  follow known (loadingAfter op) = Some known.
Proof. destruct op; split; reflexivity. Qed.

Lemma follow_call op this :
  is_Destroy op = false ->
  follow (status (scoreData this)) (events (call op this))
  = Some (status (scoreData (after (call op this)))).
Proof.
  intros Hd. rewrite call_spec.
  destruct (recomputed op this) as [c|] eqn:Hc; cbn [events after fst snd].
  - destruct (follow_loading (status (scoreData this)) op
                (events (calculateScore c) ++ loadingAfter op)) as [-> _].
    rewrite follow_app. rewrite <- (recomputed_scoreData _ _ _ Hc).
    rewrite follow_calculateScore.
    now destruct (follow_loading (status (snapshot c)) op []) as [_ ->].
  - destruct (follow_loading (status (scoreData this)) op (loadingAfter op))
      as [-> ->].
    destruct op; try discriminate; reflexivity.
Qed.

(** X5: as long as [destroy] is not called, a listener that knows the
    status of an instance and then only listens to [onStatusChange]
    always holds the stored status: through any sequence of calls every
    notification carries as old status the status notified before, a new
    status that differs from it, and the last one notified is the stored
    one. *)
Theorem status_followed_through_notifications ops : forall this : Calc,
  existsb is_Destroy ops = false ->
  follow (status (scoreData this)) (events (calls ops this))
  = Some (status (scoreData (after (calls ops this)))).
Proof.
  induction ops as [|op ops IH]; intros this Hd; [reflexivity|].
  cbn [existsb] in Hd. apply orb_false_iff in Hd. destruct Hd as [Hop Hops].
  destruct (calls_cons op ops this) as [-> ->].
  rewrite follow_app, (follow_call _ _ Hop). now apply IH.
Qed.

Lemma status_followed_through_notifications_witness :
  let ops := [UpdateVoteData "n1" (votes 11 9 0); SetThreshold 0.5;
              SetThreshold 2; RecalculateScore "n1" Resolved 0.1 0.9;
              SetMinVotes 50] in
  follow Pending (events (calls ops (constructor noOptions)))
  = Some (status (scoreData (after (calls ops (constructor noOptions))))).
Proof.
  cbv zeta.
  apply (status_followed_through_notifications
           [UpdateVoteData "n1" (votes 11 9 0); SetThreshold 0.5;
            SetThreshold 2; RecalculateScore "n1" Resolved 0.1 0.9;
            SetMinVotes 50] (constructor noOptions)).
  reflexivity.
Defined.

(** X6: [destroy] calls no callback although it resets the status to
    'pending'; the next recomputation then notifies a change from
    'pending', so a listener that held any other status is out of step:
    the old status of that notification is not the one it was told
    last. *)
Theorem destroy_is_silent (this : Calc) :
  events (destroy this) = [] /\
  status (scoreData (after (destroy this))) = Pending /\
  threshold (after (destroy this)) = threshold this /\
  minVotes (after (destroy this)) = minVotes this /\
  (exists newStatus,
     filter is_StatusChange (events (calls [Destroy; CalculateScore] this))
     = [StatusChange newStatus Pending]) /\
  (status (scoreData this) <> Pending ->
   follow (status (scoreData this))
     (events (calls [Destroy; CalculateScore] this)) = None).
Proof.
  repeat split.
  - exists (status (snapshot (after (destroy this)))).
    destruct (calls_cons Destroy [CalculateScore] this) as [_ ->].
    destruct (calls_cons CalculateScore [] (after (call Destroy this))) as [_ ->].
    rewrite !call_spec. cbn [recomputed untouched events after fst snd
      loadingBefore loadingAfter app calls ret].
    rewrite app_nil_r, calculateScore_events.
    cbn [filter is_StatusChange scoreData status emptyScoreData].
    destruct (Status_eqb_spec
      (status (snapshot (mkCalc (threshold this) (minVotes this) (apiUrl this)
                           None emptyVoteData emptyScoreData))) Pending)
      as [Heq|Hne]; [|reflexivity].
    now apply spec_status_not_pending in Heq.
  - intros Hne.
    destruct (calls_cons Destroy [CalculateScore] this) as [_ ->].
    destruct (calls_cons CalculateScore [] (after (call Destroy this))) as [_ ->].
    rewrite !call_spec. cbn [recomputed untouched events after fst snd
      loadingBefore loadingAfter app calls ret].
    rewrite app_nil_r, calculateScore_events.
    cbn [scoreData status emptyScoreData follow].
    destruct (Status_eqb_spec
      (status (snapshot (mkCalc (threshold this) (minVotes this) (apiUrl this)
                           None emptyVoteData emptyScoreData))) Pending)
      as [Heq|_].
    + now apply spec_status_not_pending in Heq.
    + cbn [app follow].
      destruct (Status_eqb_spec Pending (status (scoreData this)));
        [congruence|reflexivity].
Qed.

Lemma destroy_is_silent_witness :
  let this := after (updateVoteData "n1" (votes 6 4 0) (constructor noOptions)) in
  follow (status (scoreData this))
    (events (calls [Destroy; CalculateScore] this)) = None.
Proof.
  cbv zeta.
  destruct (destroy_is_silent
              (after (updateVoteData "n1" (votes 6 4 0) (constructor noOptions))))
    as (_ & _ & _ & _ & _ & H).
  apply H. discriminate.
Defined.

(* ================================================================= *)
(** ** How the verdict moves with the policy *)

Lemma setThreshold_state t this :
  (0 <=? t) = true -> (t <=? 1) = true ->
  after (setThreshold t this)
  = set_scoreData (snapshot (set_threshold t this)) (set_threshold t this).
Proof.
  intros H0 H1. destruct (setThreshold_accepted t this H0 H1) as [-> _].
  apply calculateScore_after.
Qed.

Lemma setMinVotes_state m this :
  (0 <=? m) = true ->
  after (setMinVotes m this)
  = set_scoreData (snapshot (set_minVotes m this)) (set_minVotes m this).
Proof.
  intros H0. change (setMinVotes m this) with (call (SetMinVotes m) this).
  rewrite call_spec. cbn [recomputed]. unfold Js.ge. rewrite H0. reflexivity.
Qed.

(** X7: for one tally and one minimum, lowering the threshold can only
    turn 'non-fake' into 'fake', never the reverse: with [0 <= t1 <= t2
    <= 1], 'fake' under [t2] is 'fake' under [t1], 'non-fake' under [t1]
    is 'non-fake' under [t2], 'insufficient' does not depend on the
    threshold, and neither do the fake score and the confidence. *)
Theorem verdict_monotone_in_threshold (this : Calc) t1 t2 :
  (0 <=? t1) = true -> (t1 <=? t2) = true -> (t2 <=? 1) = true ->
  let s1 := scoreData (after (setThreshold t1 this)) in
  let s2 := scoreData (after (setThreshold t2 this)) in
  (status s2 = Fake -> status s1 = Fake) /\
  (status s1 = NonFake -> status s2 = NonFake) /\
  (status s1 = Insufficient <-> status s2 = Insufficient) /\
  fakeScore s1 = fakeScore s2 /\ confidence s1 = confidence s2.
Proof.
  intros H0 H12 H1 s1 s2. subst s1 s2.
  rewrite !setThreshold_state;
    eauto using leb_trans.
  cbn [scoreData set_scoreData snapshot status fakeScore confidence
       set_threshold voteData minVotes threshold].
  unfold spec_status.
  set (fs := if 0 <? validVotes (voteData this)
             then fakeVotes (voteData this) / validVotes (voteData this)
             else 0).
  destruct (validVotes (voteData this) <? minVotes this).
  { repeat split; congruence. }
  destruct (t2 <=? fs) eqn:E2.
  - rewrite (leb_trans _ _ _ H12 E2). repeat split; congruence.
  - destruct (t1 <=? fs); repeat split; congruence.
Qed.

Lemma verdict_monotone_in_threshold_witness :
  let this := after (updateVoteData "n1" (votes 11 9 0) (constructor noOptions)) in
  status (scoreData (after (setThreshold 0.5 this))) = Fake /\
  status (scoreData (after (setThreshold 0.25 this))) = Fake.
Proof.
  cbv zeta. split; [reflexivity|].
  destruct (verdict_monotone_in_threshold
              (after (updateVoteData "n1" (votes 11 9 0) (constructor noOptions)))
              0.25 0.5 eq_refl eq_refl eq_refl) as (H & _).
  apply H. reflexivity.
Defined.

(** X8: for one tally and one threshold, raising the minimum can only
    move the verdict to 'insufficient': with [0 <= m1 <= m2],
    'insufficient' under [m1] is 'insufficient' under [m2], a verdict
    other than 'insufficient' under [m2] is the verdict under [m1], and
    the fake score does not depend on the minimum. *)
Theorem verdict_monotone_in_minimum (this : Calc) m1 m2 :
  (0 <=? m1) = true -> (m1 <=? m2) = true ->
  let s1 := scoreData (after (setMinVotes m1 this)) in
  let s2 := scoreData (after (setMinVotes m2 this)) in
  (status s1 = Insufficient -> status s2 = Insufficient) /\
  (status s2 <> Insufficient -> status s1 = status s2) /\
  fakeScore s1 = fakeScore s2.
Proof.
  intros H0 H12 s1 s2. subst s1 s2.
  rewrite !setMinVotes_state; eauto using leb_trans.
  cbn [scoreData set_scoreData snapshot status fakeScore
       set_minVotes voteData minVotes threshold].
  unfold spec_status.
  destruct (validVotes (voteData this) <? m1) eqn:E1.
  - rewrite (ltb_leb_trans _ _ _ E1 H12). repeat split; congruence.
  - destruct (validVotes (voteData this) <? m2); repeat split; congruence.
Qed.

Lemma verdict_monotone_in_minimum_witness :
  let this := after (updateVoteData "n1" (votes 6 4 0) (constructor noOptions)) in
  status (scoreData (after (setMinVotes 11 this))) = Insufficient /\
  status (scoreData (after (setMinVotes 20 this))) = Insufficient.
Proof.
  cbv zeta. split; [reflexivity|].
  destruct (verdict_monotone_in_minimum
              (after (updateVoteData "n1" (votes 6 4 0) (constructor noOptions)))
              11 20 eq_refl eq_refl) as (H & _).
  apply H. reflexivity.
Defined.

(** X9: accepted policy and tally updates can be made in any order: the
    instance after [setThreshold] and [setMinVotes], or after a setter
    and [updateVoteData], is the same whichever came first, and of two
    [setThreshold] calls only the last counts. *)
Theorem updates_commute (this : Calc) t t' m newsId data :
  (0 <=? t) = true -> (t <=? 1) = true ->
  (0 <=? t') = true -> (t' <=? 1) = true ->
  (0 <=? m) = true ->
  after (setMinVotes m (after (setThreshold t this)))
  = after (setThreshold t (after (setMinVotes m this))) /\
  after (updateVoteData newsId data (after (setThreshold t this)))
  = after (setThreshold t (after (updateVoteData newsId data this))) /\
  after (updateVoteData newsId data (after (setMinVotes m this)))
  = after (setMinVotes m (after (updateVoteData newsId data this))) /\
  after (setThreshold t' (after (setThreshold t this)))
  = after (setThreshold t' this).
Proof.
  intros H0 H1 H0' H1' Hm.
  repeat (progress (rewrite ?updateVoteData_after;
                    rewrite ?setThreshold_state by assumption;
                    rewrite ?setMinVotes_state by assumption)).
  repeat split.
Qed.

Lemma updates_commute_witness :
  let this := after (updateVoteData "n1" (votes 6 4 0) (constructor noOptions)) in
  after (setMinVotes 20 (after (setThreshold 0.5 this)))
  = after (setThreshold 0.5 (after (setMinVotes 20 this))).
Proof.
  cbv zeta.
  destruct (updates_commute
              (after (updateVoteData "n1" (votes 6 4 0) (constructor noOptions)))
              0.5 0.7 20 "n2"%string (votes 1 1 1)
              eq_refl eq_refl eq_refl eq_refl eq_refl) as (H & _).
  exact H.
Defined.

(* ================================================================= *)
(** ** The loading state under overlapping recalculations *)

Lemma loadingDepth_app evs1 evs2 :
  loadingDepth (evs1 ++ evs2) = (loadingDepth evs1 + loadingDepth evs2)%Z.
Proof.
  induction evs1 as [|[sd|n o|[|]] evs1 IH]; cbn [app loadingDepth]; lia.
Qed.

Lemma loadingDepth_calculateScore this :
  loadingDepth (events (calculateScore this)) = 0%Z.
Proof.
  rewrite calculateScore_events. cbn [loadingDepth].
  destruct (Status_eqb _ _); reflexivity.
Qed.

Lemma loadingDepth_resume newsId timer random1 random2 this :
  loadingDepth (events (recalculateScore_resume newsId timer random1 random2 this))
  = (-1)%Z.
Proof.
  destruct timer as [|error].
  - rewrite resume_resolved. cbv zeta. cbn [events snd].
    rewrite loadingDepth_app, updateVoteData_events, loadingDepth_calculateScore.
    reflexivity.
  - reflexivity.
Qed.

Lemma remove_nth_length {A} (l : list A) : forall i a,
  nth_error l i = Some a -> S (List.length (remove_nth i l)) = List.length l.
Proof.
  induction l as [|b l IH]; intros [|i] a H; cbn in *; try discriminate.
  - reflexivity.
  - f_equal. now apply (IH i a).
Qed.

Lemma last_after_prefix {A} (l1 l2 : list A) x d :
  last (l1 ++ l2 ++ [x]) d = x.
Proof. rewrite app_assoc. apply last_last. Qed.

Lemma step_loadingDepth w t :
  (loadingDepth (log (step w t)) - Z.of_nat (List.length (suspended (step w t)))
   = loadingDepth (log w) - Z.of_nat (List.length (suspended w)))%Z.
Proof.
  destruct t as [newsId|i timer random1 random2]; cbn [step].
  - cbn [log suspended]. rewrite loadingDepth_app, length_app. cbn. lia.
  - destruct (nth_error (suspended w) i) as [newsId|] eqn:Hi; [|reflexivity].
    cbn [log suspended]. rewrite loadingDepth_app, loadingDepth_resume.
    pose proof (remove_nth_length _ _ _ Hi). lia.
Qed.

Lemma run_loadingDepth tasks : forall w,
  (loadingDepth (log (run tasks w)) - Z.of_nat (List.length (suspended (run tasks w)))
   = loadingDepth (log w) - Z.of_nat (List.length (suspended w)))%Z.
Proof.
  induction tasks as [|t tasks IH]; intros w; [reflexivity|].
  cbn [run fold_left]. fold (run tasks (step w t)).
  rewrite IH. apply step_loadingDepth.
Qed.

(** X10: however calls of [recalculateScore] and their completions,
    successful or failed, are interleaved on one instance, loading has
    been switched on exactly as many times more than off as there are
    calls still suspended; so it is at rest when no call is pending.
    But the switch itself is a plain flag: when the first of two
    overlapping calls completes, loading is switched off while the other
    call is still in flight. *)
Theorem loading_depth_counts_suspended_calls :
  (forall tasks (c : Calc),
     let w := run tasks (start c) in
     loadingDepth (log w) = Z.of_nat (List.length (suspended w))) /\
  (forall (c : Calc) newsId i timer random1 random2,
     (i < 2)%nat ->
     let w := run [Call newsId; Call newsId; Fire i timer random1 random2]
                (start c) in
     last (log w) (Loading true) = Loading false /\
     suspended w = [newsId]).
Proof.
  split.
  - intros tasks c w. subst w. pose proof (run_loadingDepth tasks (start c)) as H.
    cbn [start log suspended loadingDepth List.length] in H. lia.
  - intros c newsId i timer random1 random2 Hi w. subst w.
    cbn [run fold_left]. cbn [step start calc suspended log app
      recalculateScore_enter showLoading emit after events fst snd].
    assert (Hn : nth_error [newsId; newsId] i = Some newsId).
    { destruct i as [|[|i]]; [reflexivity|reflexivity|lia]. }
    rewrite Hn. cbn [log suspended]. split.
    + destruct timer as [|error].
      * rewrite resume_resolved. cbv zeta. cbn [events snd].
        apply (last_after_prefix [Loading true; Loading true]).
      * reflexivity.
    + destruct i as [|[|i]]; [reflexivity|reflexivity|lia].
Qed.

Lemma loading_depth_counts_suspended_calls_witness :
  let w := run [Call "n1"; Call "n1"; Fire 1 Resolved 0.3 0.8]
             (start (constructor noOptions)) in
  last (log w) (Loading true) = Loading false /\ suspended w = ["n1"%string].
Proof.
  destruct loading_depth_counts_suspended_calls as (_ & H).
  apply (H (constructor noOptions) "n1"%string 1%nat Resolved 0.3 0.8). lia.
Defined.

(* ================================================================= *)
(** ** Replacing the tally *)

(** X16: [updateVoteData] replaces the tally, the article and the score
    data wholesale: the instance it leaves depends only on its
    arguments and on the policy, not on the tally, the article or the
    scores that were stored before. *)
Theorem tally_replaced_wholesale newsId data (this this' : Calc) :
  threshold this = threshold this' -> minVotes this = minVotes this' ->
  apiUrl this = apiUrl this' ->
  after (updateVoteData newsId data this)
  = after (updateVoteData newsId data this').
Proof.
  intros Ht Hm Hu. rewrite !updateVoteData_after.
  destruct this, this'. cbn in Ht, Hm, Hu. subst. reflexivity.
Qed.

Lemma tally_replaced_wholesale_witness :
  after (updateVoteData "n2" (votes 1 2 3)
           (after (updateVoteData "n1" (votes 30 20 5) (constructor noOptions))))
  = after (updateVoteData "n2" (votes 1 2 3) (constructor noOptions)).
Proof. apply tally_replaced_wholesale; reflexivity. Defined.

(* ================================================================= *)
(** ** The news list *)

Module NewsListProofs.

Import NewsList.
#[local] Open Scope Z_scope.

Lemma pageWindow_facts pageCount cur :
  1 <= pageCount ->
  let s := fst (pageWindow pageCount cur) in
  let e := snd (pageWindow pageCount cur) in
  1 <= s /\ s <= e /\ e <= pageCount /\
  e - s + 1 = Z.min maxVisiblePages pageCount /\
  (1 <= cur <= pageCount -> s <= cur <= e) /\
  (cur < 1 \/ pageCount < cur -> cur < s \/ e < cur).
Proof.
  intros Hpc. unfold pageWindow, maxVisiblePages.
  change (5 / 2) with 2.
  destruct (Z.ltb_spec
    (Z.min pageCount (Z.max 1 (cur - 2) + 5 - 1) - Z.max 1 (cur - 2) + 1) 5);
    cbn [fst snd]; lia.
Qed.

(** X11: for any page count of at least 1 and any current page, even
    one out of range, the window of page buttons lies within
    [1, pageCount], shows 5 pages, or all of them when there are fewer,
    and contains the current page whenever that is a page. *)
Theorem page_window_in_range pageCount cur :
  1 <= pageCount ->
  let s := fst (pageWindow pageCount cur) in
  let e := snd (pageWindow pageCount cur) in
  1 <= s /\ s <= e /\ e <= pageCount /\
  e - s + 1 = Z.min 5 pageCount /\
  (1 <= cur <= pageCount -> s <= cur <= e).
Proof.
  intros Hpc s e.
  destruct (pageWindow_facts pageCount cur Hpc) as (H1 & H2 & H3 & H4 & H5 & _).
  repeat split; try assumption; now apply H5.
Qed.

Lemma page_window_in_range_witness :
  let s := fst (pageWindow 10 10) in
  let e := snd (pageWindow 10 10) in
  1 <= s /\ s <= e /\ e <= 10 /\ e - s + 1 = Z.min 5 10 /\
  (1 <= 10 <= 10 -> s <= 10 <= e).
Proof. apply (page_window_in_range 10 10). lia. Defined.

Lemma pagesFrom_In n : forall s p,
  In p (pagesFrom s n) <-> s <= p < s + Z.of_nat n.
Proof.
  induction n as [|n IH]; intros s p; cbn [pagesFrom In].
  - lia.
  - rewrite IH. lia.
Qed.

Lemma pagesFrom_sorted n : forall s, StronglySorted Z.lt (pagesFrom s n).
Proof.
  induction n as [|n IH]; intros s; cbn [pagesFrom]; constructor.
  - apply IH.
  - apply Forall_forall. intros p Hp. apply pagesFrom_In in Hp. lia.
Qed.

Lemma sorted_app (l1 l2 : list Z) :
  StronglySorted Z.lt l1 -> StronglySorted Z.lt l2 ->
  (forall a b, In a l1 -> In b l2 -> a < b) ->
  StronglySorted Z.lt (l1 ++ l2).
Proof.
  induction l1 as [|a l1 IH]; intros H1 H2 H; [exact H2|].
  inversion H1 as [|? ? Hs Hf]; subst. cbn [app]. constructor.
  - apply IH; auto. intros x y Hx Hy. apply H; [now right|exact Hy].
  - apply Forall_app. split; [exact Hf|].
    apply Forall_forall. intros y Hy. apply H; [now left|exact Hy].
Qed.

Lemma pagesOf_app c1 c2 : pagesOf (c1 ++ c2) = pagesOf c1 ++ pagesOf c2.
Proof.
  induction c1 as [|[d p|a p| |d p] c1 IH]; cbn [app pagesOf]; congruence.
Qed.

Lemma activeOf_app c1 c2 : activeOf (c1 ++ c2) = activeOf c1 ++ activeOf c2.
Proof.
  induction c1 as [|[d p|[|] p| |d p] c1 IH]; cbn [app activeOf]; congruence.
Qed.

Lemma pagesOf_window cur l :
  pagesOf (map (fun i => PageBtn (i =? cur) i) l) = l.
Proof. induction l as [|a l IH]; cbn; congruence. Qed.

Lemma activeOf_window cur n : forall s,
  activeOf (map (fun i => PageBtn (i =? cur) i) (pagesFrom s n))
  = if (s <=? cur) && (cur <? s + Z.of_nat n) then [cur] else [].
Proof.
  induction n as [|n IH]; intros s; cbn [pagesFrom map activeOf].
  - destruct (Z.leb_spec s cur), (Z.ltb_spec cur (s + Z.of_nat 0));
      cbn; try reflexivity; lia.
  - destruct (Z.eqb_spec s cur) as [->|Hne]; cbn [activeOf]; rewrite IH.
    + destruct (Z.leb_spec (cur + 1) cur); [lia|]. cbn [andb].
      destruct (Z.leb_spec cur cur); [|lia].
      destruct (Z.ltb_spec cur (cur + Z.of_nat (S n))); [reflexivity|lia].
    + destruct (Z.leb_spec (s + 1) cur), (Z.leb_spec s cur),
        (Z.ltb_spec cur (s + 1 + Z.of_nat n)),
        (Z.ltb_spec cur (s + Z.of_nat (S n))); cbn; try reflexivity; lia.
Qed.

Lemma wellSpaced_window cur n : forall s q ell rest,
  wellSpaced (Some q) ell
    (map (fun i => PageBtn (i =? cur) i) (pagesFrom s (S n)) ++ rest)
  = (if ell then q + 1 <? s else s =? q + 1)
    && wellSpaced (Some (s + Z.of_nat n)) false rest.
Proof.
  induction n as [|n IH]; intros s q ell rest.
  - cbn [pagesFrom map app wellSpaced]. now rewrite Z.add_0_r.
  - change (pagesFrom s (S (S n))) with (s :: pagesFrom (s + 1) (S n)).
    cbn [map app wellSpaced]. rewrite IH. rewrite Z.eqb_refl. cbn [andb].
    do 2 f_equal. f_equal. lia.
Qed.

Lemma wellSpaced_window_first cur n s rest :
  wellSpaced None false
    (map (fun i => PageBtn (i =? cur) i) (pagesFrom s (S n)) ++ rest)
  = wellSpaced (Some (s + Z.of_nat n)) false rest.
Proof.
  destruct n as [|n].
  - cbn [pagesFrom map app wellSpaced]. now rewrite Z.add_0_r.
  - change (pagesFrom s (S (S n))) with (s :: pagesFrom (s + 1) (S n)).
    cbn [map app wellSpaced andb]. rewrite wellSpaced_window.
    rewrite Z.eqb_refl. cbn [andb]. do 2 f_equal. lia.
Qed.

(** X12: with more than one page, [updatePagination] shows page
    buttons whose pages increase strictly, lie in [1, pageCount] and
    include the first and the last page; two neighbouring buttons are
    consecutive pages and an ellipsis stands exactly between buttons
    that leave pages out; exactly the button of the current page is
    active, and none is when the current page is out of range. *)
Theorem pagination_controls_consistent pageCount cur :
  1 < pageCount ->
  exists controls,
    updatePagination pageCount cur = Some controls /\
    StronglySorted Z.lt (pagesOf controls) /\
    (forall p, In p (pagesOf controls) -> 1 <= p <= pageCount) /\
    In 1 (pagesOf controls) /\ In pageCount (pagesOf controls) /\
    wellSpaced None false controls = true /\
    activeOf controls
    = (if (1 <=? cur) && (cur <=? pageCount) then [cur] else []).
Proof.
  intros Hpc. unfold updatePagination.
  destruct (Z.leb_spec pageCount 1) as [|_]; [lia|].
  pose proof (pageWindow_facts pageCount cur ltac:(lia)) as Hw.
  destruct (pageWindow pageCount cur) as [s e]. cbn [fst snd] in Hw.
  destruct Hw as (Hs & Hse & He & Hsize & Hin & Hout).
  unfold pageRange.
  assert (Hn : exists n, Z.to_nat (e - s + 1) = S n /\ s + Z.of_nat n = e).
  { exists (Z.to_nat (e - s)). split; lia. }
  destruct Hn as (n & -> & Hn).
  eexists. split; [reflexivity|].
  assert (Hpages :
    pagesOf ([PrevBtn (cur =? 1) (cur - 1)]
       ++ (if 1 <? s
           then PageBtn false 1 :: (if 2 <? s then [Ellipsis] else [])
           else [])
       ++ map (fun i => PageBtn (i =? cur) i) (pagesFrom s (S n))
       ++ (if e <? pageCount
           then (if e <? pageCount - 1 then [Ellipsis] else [])
                ++ [PageBtn false pageCount]
           else [])
       ++ [NextBtn (cur =? pageCount) (cur + 1)])
    = (if 1 <? s then [1] else []) ++ pagesFrom s (S n)
      ++ (if e <? pageCount then [pageCount] else [])).
  { rewrite !pagesOf_app, pagesOf_window. cbn [pagesOf app].
    destruct (1 <? s), (2 <? s), (e <? pageCount), (e <? pageCount - 1);
      cbn [pagesOf app]; now rewrite ?app_nil_r. }
  rewrite Hpages.
  assert (Hmem : forall p,
    In p ((if 1 <? s then [1] else []) ++ pagesFrom s (S n)
          ++ (if e <? pageCount then [pageCount] else []))
    <-> ((1 < s /\ p = 1) \/ s <= p <= e \/ (e < pageCount /\ p = pageCount))).
  { intros p. rewrite !in_app_iff, pagesFrom_In.
    destruct (Z.ltb_spec 1 s), (Z.ltb_spec e pageCount); cbn [In]; lia. }
  split; [|split; [|split; [|split; [|split]]]].
  - apply sorted_app; [|apply sorted_app|].
    + destruct (1 <? s); repeat constructor.
    + apply pagesFrom_sorted.
    + destruct (e <? pageCount); repeat constructor.
    + intros a b Ha Hb. apply pagesFrom_In in Ha.
      destruct (Z.ltb_spec e pageCount); cbn [In] in Hb; lia.
    + intros a b Ha Hb.
      assert (Hb' : s <= b) by
        (apply in_app_iff in Hb; rewrite pagesFrom_In in Hb;
         destruct (Z.ltb_spec e pageCount); cbn [In] in Hb; lia).
      destruct (Z.ltb_spec 1 s); cbn [In] in Ha; lia.
  - intros p Hp. apply Hmem in Hp. lia.
  - apply Hmem. lia.
  - apply Hmem. lia.
  - cbn [app wellSpaced].
    destruct (Z.ltb_spec 1 s) as [H1|H1].
    + cbn [app wellSpaced andb].
      destruct (Z.ltb_spec 2 s) as [H2|H2]; cbn [app wellSpaced];
        rewrite wellSpaced_window, Hn.
      * destruct (Z.ltb_spec (1 + 1) s); [|lia]. cbn [andb].
        destruct (Z.ltb_spec e pageCount) as [H3|H3]; [|reflexivity].
        destruct (Z.ltb_spec e (pageCount - 1)); cbn [app wellSpaced].
        -- destruct (Z.ltb_spec (e + 1) pageCount); [reflexivity|lia].
        -- destruct (Z.eqb_spec pageCount (e + 1)); [reflexivity|lia].
      * destruct (Z.eqb_spec s (1 + 1)); [|lia]. cbn [andb].
        destruct (Z.ltb_spec e pageCount) as [H3|H3]; [|reflexivity].
        destruct (Z.ltb_spec e (pageCount - 1)); cbn [app wellSpaced].
        -- destruct (Z.ltb_spec (e + 1) pageCount); [reflexivity|lia].
        -- destruct (Z.eqb_spec pageCount (e + 1)); [reflexivity|lia].
    + cbn [app]. rewrite wellSpaced_window_first, Hn.
      destruct (Z.ltb_spec e pageCount) as [H3|H3]; [|reflexivity].
      destruct (Z.ltb_spec e (pageCount - 1)); cbn [app wellSpaced].
      * destruct (Z.ltb_spec (e + 1) pageCount); [reflexivity|lia].
      * destruct (Z.eqb_spec pageCount (e + 1)); [reflexivity|lia].
  - rewrite !activeOf_app, activeOf_window.
    assert (Hf : activeOf (if 1 <? s
                 then PageBtn false 1 :: (if 2 <? s then [Ellipsis] else [])
                 else []) = []) by (destruct (1 <? s), (2 <? s); reflexivity).
    assert (Hl : activeOf (if e <? pageCount
                 then (if e <? pageCount - 1 then [Ellipsis] else [])
                      ++ [PageBtn false pageCount]
                 else []) = [])
      by (destruct (e <? pageCount), (e <? pageCount - 1); reflexivity).
    rewrite Hf, Hl. cbn [activeOf app]. rewrite app_nil_r.
    destruct (Z.leb_spec 1 cur), (Z.leb_spec cur pageCount),
      (Z.leb_spec s cur), (Z.ltb_spec cur (s + Z.of_nat (S n)));
      cbn [andb]; try reflexivity; lia.
Qed.

Lemma pagination_controls_consistent_witness :
  exists controls,
    updatePagination 10 10 = Some controls /\
    pagesOf controls = [1; 6; 7; 8; 9; 10] /\ activeOf controls = [10].
Proof.
  destruct (pagination_controls_consistent 10 10 ltac:(lia))
    as (controls & Hc & _ & _ & _ & _ & _ & Ha).
  exists controls. split; [exact Hc|]. split; [|exact Ha].
  injection Hc as <-. reflexivity.
Defined.
(** X13: clicking the previous button, the next button or any page
    button that [updatePagination] has rendered for the current state
    leaves the current page within [1, last page]. *)
Theorem navigation_stays_in_range (st : PageState) :
  1 <= currentPage st <= lastPage st ->
  (1 <= currentPage (clickPrev st) <= lastPage st /\
   lastPage (clickPrev st) = lastPage st) /\
  (1 <= currentPage (clickNext st) <= lastPage st /\
   lastPage (clickNext st) = lastPage st) /\
  (forall controls page,
     updatePagination (lastPage st) (currentPage st) = Some controls ->
     In page (pagesOf controls) ->
     currentPage (clickPage page st) = page /\
     1 <= currentPage (clickPage page st) <= lastPage st).
Proof.
  intros Hr. split; [|split].
  - unfold clickPrev. destruct (Z.ltb_spec 1 (currentPage st));
      cbn [currentPage lastPage]; lia.
  - unfold clickNext. destruct (Z.ltb_spec (currentPage st) (lastPage st));
      cbn [currentPage lastPage]; lia.
  - intros controls page Hc Hp.
    assert (Hlast : 1 < lastPage st).
    { unfold updatePagination in Hc.
      destruct (Z.leb_spec (lastPage st) 1); [discriminate|assumption]. }
    destruct (pagination_controls_consistent (lastPage st) (currentPage st) Hlast)
      as (controls' & Hc' & _ & Hrange & _).
    rewrite Hc in Hc'. injection Hc' as <-.
    specialize (Hrange page Hp).
    unfold clickPage. destruct (Z.eqb_spec page (currentPage st)) as [->|];
      cbn [negb currentPage]; lia.
Qed.

Lemma navigation_stays_in_range_witness :
  1 <= currentPage (clickNext (mkPageState 3 7)) <= 7 /\
  1 <= currentPage (clickPrev (mkPageState 1 7)) <= 7.
Proof.
  split.
  - apply (navigation_stays_in_range (mkPageState 3 7)). cbn. lia.
  - apply (navigation_stays_in_range (mkPageState 1 7)). cbn. lia.
Defined.

Lemma firstn_plus {A} (a b : nat) : forall l : list A,
  firstn (a + b) l = firstn a l ++ firstn b (skipn a l).
Proof.
  induction a as [|a IH]; intros [|x l]; cbn; try reflexivity.
  - now rewrite firstn_nil.
  - now rewrite IH.
Qed.

Lemma skipn_plus {A} (a b : nat) : forall l : list A,
  skipn (a + b) l = skipn b (skipn a l).
Proof.
  induction a as [|a IH]; intros [|x l]; cbn; try reflexivity.
  - now rewrite skipn_nil.
  - apply IH.
Qed.

(** A page of at least 1 and a page size of at least 1: the page is the
    next [currentPageSize] items after the earlier pages. *)
Lemma currentPageNews_chunk {A} (l : list A) page size :
  1 <= page -> 1 <= size ->
  currentPageNews l page size
  = firstn (Z.to_nat size) (skipn (Z.to_nat ((page - 1) * size)) l).
Proof.
  intros Hp Hs. unfold currentPageNews, slice.
  set (start := (page - 1) * size). set (len := Z.of_nat (List.length l)).
  assert (0 <= start) by (subst start; nia).
  destruct (Z.ltb_spec start 0); [lia|].
  destruct (Z.ltb_spec (start + size) 0); [lia|].
  destruct (Z.le_gt_cases len start) as [Hge|Hlt].
  - rewrite !Z.min_r by lia. rewrite Z.sub_diag. cbn [Z.to_nat firstn].
    rewrite (skipn_all2 l) by (subst len; lia). now rewrite firstn_nil.
  - rewrite (Z.min_l start len) by lia.
    destruct (Z.le_gt_cases (start + size) len).
    + rewrite Z.min_l by lia. f_equal. lia.
    + rewrite Z.min_r by lia.
      rewrite (firstn_all2 (n := Z.to_nat size)).
      * apply firstn_all2. rewrite length_skipn. subst len. lia.
      * rewrite length_skipn. subst len. lia.
Qed.

Lemma pages_concat {A} (l : list A) size :
  1 <= size -> forall n page,
  1 <= page ->
  List.concat (map (fun p => currentPageNews l p size) (pagesFrom page n))
  = firstn (n * Z.to_nat size) (skipn (Z.to_nat ((page - 1) * size)) l).
Proof.
  intros Hs n. induction n as [|n IH]; intros page Hp; [reflexivity|].
  cbn [pagesFrom map List.concat]. rewrite IH by lia.
  rewrite currentPageNews_chunk by lia.
  cbn [Nat.mul]. rewrite firstn_plus, <- skipn_plus. do 3 f_equal. nia.
Qed.

Lemma totalPages_bounds len size :
  0 <= len -> 1 <= size ->
  0 <= totalPages len size /\
  (totalPages len size - 1) * size < len \/ len = 0 /\ totalPages len size = 0.
Proof.
  intros Hl Hs. unfold totalPages.
  pose proof (Z.div_mod (- len) size ltac:(lia)).
  pose proof (Z.mod_pos_bound (- len) size ltac:(lia)).
  nia.
Qed.

Lemma totalPages_covers len size :
  0 <= len -> 1 <= size -> len <= totalPages len size * size.
Proof.
  intros Hl Hs. unfold totalPages.
  pose proof (Z.div_mod (- len) size ltac:(lia)).
  pose proof (Z.mod_pos_bound (- len) size ltac:(lia)).
  nia.
Qed.

(** X14: with a page size of at least 1, the pages [1 .. totalPages] of
    a list are its consecutive chunks: none is longer than the page
    size, none is empty, together and in order they are the whole list,
    and every page after them, and page 0, is empty. *)
Theorem pages_partition_the_list {A} (l : list A) size :
  1 <= size ->
  let len := Z.of_nat (List.length l) in
  (forall page, 1 <= page ->
     Z.of_nat (List.length (currentPageNews l page size)) <= size) /\
  List.concat (map (fun p => currentPageNews l p size)
            (pagesFrom 1 (Z.to_nat (totalPages len size)))) = l /\
  (forall page, 1 <= page <= totalPages len size ->
     currentPageNews l page size <> []) /\
  (forall page, totalPages len size < page ->
     currentPageNews l page size = []) /\
  currentPageNews l 0 size = [].
Proof.
  intros Hs len.
  assert (Hlen : 0 <= len) by (subst len; lia).
  pose proof (totalPages_covers len size Hlen Hs) as Hcov.
  destruct (totalPages_bounds len size Hlen Hs) as [[Hnn Hlast]|[Hz Ht]].
  - split; [|split; [|split; [|split]]].
    + intros page Hp. rewrite currentPageNews_chunk by lia.
      rewrite length_firstn. lia.
    + rewrite pages_concat by lia. cbn [Z.sub Z.mul Z.to_nat skipn].
      apply firstn_all2. subst len. nia.
    + intros page Hp. rewrite currentPageNews_chunk by lia.
      intros Hnil. apply (f_equal (@List.length A)) in Hnil.
      rewrite length_firstn, length_skipn in Hnil. cbn [List.length] in Hnil.
      subst len. nia.
    + intros page Hp. rewrite currentPageNews_chunk by lia.
      rewrite skipn_all2; [now rewrite firstn_nil|]. subst len. nia.
    + unfold currentPageNews, slice.
      destruct (Z.ltb_spec ((0 - 1) * size) 0); [|lia].
      destruct (Z.ltb_spec ((0 - 1) * size + size) 0); [lia|].
      replace (Z.to_nat _) with 0%nat by lia. reflexivity.
  - assert (l = []) as -> by (destruct l; [reflexivity|cbn in *; lia]).
    rewrite Ht. split; [|split; [|split; [|split]]]; try reflexivity.
    + intros page Hp. rewrite currentPageNews_chunk by lia.
      rewrite skipn_nil, firstn_nil. cbn. lia.
    + intros page Hp. lia.
    + intros page Hp. rewrite currentPageNews_chunk by lia.
      now rewrite skipn_nil, firstn_nil.
    + unfold currentPageNews, slice. rewrite skipn_nil. apply firstn_nil.
Qed.

Lemma pages_partition_the_list_witness :
  List.concat (map (fun p => currentPageNews [1; 2; 3; 4; 5; 6; 7] p 3)
            (pagesFrom 1 (Z.to_nat (totalPages 7 3))))
  = [1; 2; 3; 4; 5; 6; 7] /\
  currentPageNews [1; 2; 3; 4; 5; 6; 7] 3 3 = [7].
Proof.
  split; [|reflexivity].
  apply (pages_partition_the_list [1; 2; 3; 4; 5; 6; 7] 3). lia.
Defined.

Lemma excerpt_long {A} (dots content : list A) :
  (150 < List.length content)%nat ->
  excerpt dots content = firstn 150 content ++ dots.
Proof.
  intros H. unfold excerpt.
  destruct (Z.ltb_spec 150 (Z.of_nat (List.length content))); [reflexivity|lia].
Qed.

Lemma excerpt_short {A} (dots content : list A) :
  (List.length content <= 150)%nat -> excerpt dots content = content.
Proof.
  intros H. unfold excerpt.
  destruct (Z.ltb_spec 150 (Z.of_nat (List.length content))); [lia|reflexivity].
Qed.

(** X15: the excerpt of a content is never longer than 150 code units
    plus the three full stops, keeps the first 150 code units of the
    content, and is its own excerpt. *)
Theorem excerpt_bounded_and_stable {A} (dots content : list A) :
  List.length dots = 3%nat ->
  (List.length (excerpt dots content) <= 153)%nat /\
  firstn 150 (excerpt dots content) = firstn 150 content /\
  excerpt dots (excerpt dots content) = excerpt dots content.
Proof.
  intros Hd.
  destruct (Nat.le_gt_cases (List.length content) 150) as [Hshort|Hlong].
  - rewrite !(excerpt_short dots content Hshort).
    split; [lia|]. split; reflexivity.
  - rewrite !(excerpt_long dots content Hlong).
    assert (Hf : List.length (firstn 150 content) = 150%nat)
      by (rewrite length_firstn; lia).
    assert (Hk : firstn 150 (firstn 150 content ++ dots) = firstn 150 content).
    { rewrite firstn_app, Hf, Nat.sub_diag, firstn_O, app_nil_r.
      now rewrite firstn_firstn, Nat.min_id. }
    split; [rewrite length_app; lia|]. split; [exact Hk|].
    rewrite excerpt_long by (rewrite length_app; lia).
    now rewrite Hk.
Qed.

Lemma excerpt_bounded_and_stable_witness :
  (List.length (excerpt [46; 46; 46] (repeat 65 200)) <= 153)%nat.
Proof.
  apply (excerpt_bounded_and_stable [46; 46; 46] (repeat 65 200)). reflexivity.
Defined.

End NewsListProofs.
